(** * URL Download App: a shallow embedding of [main.py]

    The application is a PyQt5 window around [urllib.request.urlretrieve].
    Its own code is four methods of class [App]: [extract_media_url],
    [has_extension], [download] and [handle_progress].  They are embedded
    below, together with models of the standard-library functions they call
    (CPython 3.11: [urllib.parse], [pathlib] on a POSIX system, true division
    of integers) and of the widgets they touch. *)

From stdpp Require Import base option list numbers strings gmap.
From Stdlib Require Import ZArith Lia Sorted.
From Stdlib Require Ascii.
Import Ascii.AsciiSyntax.

Local Delimit Scope char_scope with char.

Local Open Scope Z_scope.

(** ** Python values *)

(** A Python [str] is a sequence of Unicode code points. *)
Definition str : Type := list N.

(** An ASCII literal as a [str]. *)
Definition py (s : string) : str := List.map Ascii.N_of_ascii (String.list_ascii_of_string s).

(** The exception classes that appear in the program and in the library
    functions it calls.  [HTTPError] and [ContentTooShortError] are the
    subclasses of [URLError]; every class listed derives from [Exception],
    [OtherException] standing for the rest of them.  What derives from
    [BaseException] only ([KeyboardInterrupt], [SystemExit]) is no error of
    a transfer and is left out. *)
Inductive exc_class : Type :=
  | ValueError
  | ZeroDivisionError
  | OverflowError
  | IndexError
  | OSError
  | URLError
  | HTTPError
  | ContentTooShortError
  | OtherException.

(** An exception object: its class and [str(e)]. *)
Record exception : Type := Exc { exc_type : exc_class; exc_str : str }.

(** [isinstance(e, urllib.error.URLError)], the test of the first handler. *)
Definition is_URLError (e : exception) : bool :=
  match exc_type e with
  | URLError | HTTPError | ContentTooShortError => true
  | _ => false
  end.

(** The outcome of a call: a value or a raised exception. *)
Inductive result (A : Type) : Type :=
  | Ok (a : A)
  | Raise (e : exception).
Arguments Ok {A} a.
Arguments Raise {A} e.

Definition rbind {A B} (r : result A) (k : A -> result B) : result B :=
  match r with
  | Ok a => k a
  | Raise e => Raise e
  end.

#[global] Instance result_ret : MRet result := fun A a => Ok a.
#[global] Instance result_bind : MBind result := fun A B k r => rbind r k.

(** ** Floating point: [int / int] and [int(float)]

    CPython divides two integers by returning the binary64 number nearest
    to the exact quotient (ties to even), and raises [OverflowError] when
    that number would not be finite.  A finite double is kept here as a
    sign, an integer significand and a binary exponent; every exponent is
    at least [emin], so quotients are scaled by [2 ^ (- emin)] and all
    arithmetic is on integers. *)
Module Float64.

Record float : Type := Float { negative : bool; mant : Z; expo : Z }.

Definition prec : Z := 53.
Definition emin : Z := -1074.
Definition emax : Z := 1024.

(** The integer nearest to [n / d], ties to even ([0 <= n], [0 < d]). *)
Definition round_half_even (n d : Z) : Z :=
  let q := n / d in
  match 2 * (n mod d) ?= d with
  | Lt => q
  | Gt => q + 1
  | Eq => if Z.even q then q else q + 1
  end.

(** [n / d] in units of the least positive double. *)
Definition scaled (n : Z) : Z := n * 2 ^ (- emin).

(** How far above [emin] the exponent of the last place of [n / d]
    lies: a quotient with [prec] significant bits or fewer is rounded at
    [emin], a longer one loses its low bits. *)
Definition ulp_shift (n d : Z) : Z :=
  Z.max 0 (Z.log2 (scaled n / d) - (prec - 1)).

(** The significand of [n / d] rounded at exponent [emin + shift]. *)
Definition round_at (shift n d : Z) : Z :=
  round_half_even (scaled n) (d * 2 ^ shift).

(** [2 ^ emax <= m * 2 ^ (emin + shift)]: not a finite double. *)
Definition too_large (m shift : Z) : bool :=
  2 ^ (emax - emin) <=? m * 2 ^ shift.

(** [a / b] on two integers. *)
Definition truediv (a b : Z) : result float :=
  if b =? 0 then Raise (Exc ZeroDivisionError (py "division by zero"))
  else
    let n := Z.abs a in
    let d := Z.abs b in
    let shift := ulp_shift n d in
    let m := round_at shift n d in
    if too_large m shift
    then Raise (Exc OverflowError (py "integer division result too large for a float"))
    else Ok (Float (negb (Z.sgn a * Z.sgn b >=? 0)) m (emin + shift)).

(** [int(x)]: truncation towards zero. *)
Definition to_int (x : float) : Z :=
  let magnitude := mant x * 2 ^ (expo x - emin) / 2 ^ (- emin) in
  if negative x then - magnitude else magnitude.

End Float64.

(** [int(a / b)] *)
Definition int_truediv (a b : Z) : result Z :=
  rbind (Float64.truediv a b) (fun x => Ok (Float64.to_int x)).

(** ** Operations of [str] *)

(** The code point of an ASCII character. *)
Definition ch (c : Ascii.ascii) : N := Ascii.N_of_ascii c.
Arguments ch c%_char.

(** [bool(s)] of a string or a list: whether it is not empty. *)
Definition truthy {A : Type} (s : list A) : bool :=
  match s with
  | [] => false
  | _ :: _ => true
  end.

(** [s == t] *)
Definition str_eqb (s t : str) : bool := bool_decide (s = t).

(** [c in s] *)
Definition contains (c : N) (s : str) : bool := existsb (N.eqb c) s.

(** [len(s)] of a string or a list *)
Definition len {A : Type} (s : list A) : Z := Z.of_nat (length s).

(** [s[:i]] and [s[i:]], with Python's reading of a negative index. *)
Definition slice_index (i : Z) (s : str) : nat :=
  Z.to_nat (if i <? 0 then Z.max 0 (len s + i) else i).
Definition slice_to (i : Z) (s : str) : str := take (slice_index i s) s.
Definition slice_from (i : Z) (s : str) : str := drop (slice_index i s) s.

(** [s.find(c)]: the least index of [c], or [-1]. *)
Fixpoint find (c : N) (s : str) : Z :=
  match s with
  | [] => -1
  | x :: s' =>
      if N.eqb x c then 0
      else let i := find c s' in if i <? 0 then -1 else i + 1
  end.

(** [s.find(c, start)] for [0 <= start]. *)
Definition find_from (c : N) (s : str) (start : Z) : Z :=
  let i := find c (slice_from start s) in
  if i <? 0 then -1 else start + i.

(** [s.rfind(c)]: the greatest index of [c], or [-1]. *)
Fixpoint rfind (c : N) (s : str) : Z :=
  match s with
  | [] => -1
  | x :: s' =>
      let i := rfind c s' in
      if 0 <=? i then i + 1 else if N.eqb x c then 0 else -1
  end.

(** [s.split(c)]: never empty. *)
Fixpoint split (c : N) (s : str) : list str :=
  match s with
  | [] => [[]]
  | x :: s' =>
      match split c s' with
      | [] => [[x]]
      | h :: t => if N.eqb x c then [] :: h :: t else (x :: h) :: t
      end
  end.

(** [s.split(c, 1)]: one or two pieces. *)
Fixpoint split1 (c : N) (s : str) : list str :=
  match s with
  | [] => [[]]
  | x :: s' =>
      if N.eqb x c then [[]; s']
      else match split1 c s' with
           | h :: t => (x :: h) :: t
           | [] => [[x]]
           end
  end.

(** [sep.join(parts)] *)
Fixpoint join (sep : N) (parts : list str) : str :=
  match parts with
  | [] => []
  | [p] => p
  | p :: rest => p ++ sep :: join sep rest
  end.

(** [s.replace(c, d)] and [s.replace(c, "")] for one-character [c], [d]. *)
Definition replace (c d : N) (s : str) : str :=
  List.map (fun x => if N.eqb x c then d else x) s.
Definition remove (c : N) (s : str) : str :=
  List.filter (fun x => negb (N.eqb x c)) s.

(** [s.lstrip(chars)] for the characters satisfying [p]. *)
Fixpoint lstrip (p : N -> bool) (s : str) : str :=
  match s with
  | [] => []
  | x :: s' => if p x then lstrip p s' else s
  end.

(** [s.isascii()] *)
Definition isascii (s : str) : bool := forallb (fun x => (x <? 128)%N) s.

Definition is_upper (x : N) : bool := (65 <=? x)%N && (x <=? 90)%N.
Definition is_lower (x : N) : bool := (97 <=? x)%N && (x <=? 122)%N.
Definition is_digit (x : N) : bool := (48 <=? x)%N && (x <=? 57)%N.

(** [c.isascii() and c.isalpha()] *)
Definition is_ascii_alpha (x : N) : bool := is_upper x || is_lower x.

(** [s.lower()] on ASCII letters, the only ones a scheme holds. *)
Definition lower (s : str) : str :=
  List.map (fun x => if is_upper x then (x + 32)%N else x) s.

(** [s.partition(c)] and [s.rpartition(c)]: the text before and after the
    first (last) [c], and whether [c] was found. *)
Definition partition (c : N) (s : str) : str * bool * str :=
  let i := find c s in
  if i <? 0 then (s, false, []) else (slice_to i s, true, slice_from (i + 1) s).
Definition rpartition (c : N) (s : str) : str * bool * str :=
  let i := rfind c s in
  if i <? 0 then ([], false, s) else (slice_to i s, true, slice_from (i + 1) s).

(** [s.startswith(c)] *)
Definition startswith (c : N) (s : str) : bool :=
  match s with
  | x :: _ => N.eqb x c
  | [] => false
  end.

(** ** [bytes.decode('utf-8', 'replace')]

    CPython's decoder: a malformed sequence is replaced by one U+FFFD and
    decoding resumes after the bytes that were recognised as its prefix. *)
Module utf8.

Definition replacement : N := 65533.

Definition is_cont (b : N) : bool := (128 <=? b)%N && (b <? 192)%N.

Definition bits (b : N) : N := (b mod 64)%N.

Fixpoint decode (bs : list N) : str :=
  match bs with
  | [] => []
  | b0 :: r1 =>
      if (b0 <? 128)%N then b0 :: decode r1
      else if (b0 <? 194)%N then replacement :: decode r1
      else if (b0 <? 224)%N then
        match r1 with
        | [] => [replacement]
        | b1 :: r2 =>
            if is_cont b1
            then ((b0 mod 32) * 64 + bits b1)%N :: decode r2
            else replacement :: decode r1
        end
      else if (b0 <? 240)%N then
        match r1 with
        | [] => [replacement]
        | b1 :: r2 =>
            if negb (is_cont b1)
               || (if (b1 <? 160)%N then N.eqb b0 224 else N.eqb b0 237)
            then replacement :: decode r1
            else
              match r2 with
              | [] => [replacement]
              | b2 :: r3 =>
                  if is_cont b2
                  then ((b0 mod 16) * 4096 + bits b1 * 64 + bits b2)%N :: decode r3
                  else replacement :: decode r2
              end
        end
      else if (b0 <? 245)%N then
        match r1 with
        | [] => [replacement]
        | b1 :: r2 =>
            if negb (is_cont b1)
               || (if (b1 <? 144)%N then N.eqb b0 240 else N.eqb b0 244)
            then replacement :: decode r1
            else
              match r2 with
              | [] => [replacement]
              | b2 :: r3 =>
                  if negb (is_cont b2) then replacement :: decode r2
                  else
                    match r3 with
                    | [] => [replacement]
                    | b3 :: r4 =>
                        if is_cont b3
                        then ((b0 mod 8) * 262144 + bits b1 * 4096
                              + bits b2 * 64 + bits b3)%N :: decode r4
                        else replacement :: decode r3
                    end
              end
        end
      else replacement :: decode r1
  end.

End utf8.

(** ** [urllib.parse] *)
Module parse.

Record ParseResult : Type := {
  scheme : str;
  netloc : str;
  path : str;
  params : str;
  query : str;
  fragment : str
}.

Definition uses_params : list str :=
  List.map py [""; "ftp"; "hdl"; "prospero"; "http"; "imap"; "https"; "shttp";
               "rtsp"; "rtspu"; "sip"; "sips"; "mms"; "sftp"; "tel"]%string.

(** Membership in [scheme_chars]: letters, digits and [+-.]. *)
Definition is_scheme_char (x : N) : bool :=
  is_lower x || is_upper x || is_digit x
  || N.eqb x (ch "+") || N.eqb x (ch "-") || N.eqb x (ch ".").

(** Membership in [_WHATWG_C0_CONTROL_OR_SPACE]. *)
Definition is_c0_control_or_space (x : N) : bool := (x <=? 32)%N.

(** [_UNSAFE_URL_BYTES_TO_REMOVE]: tab, carriage return, line feed. *)
Definition remove_unsafe (url : str) : str :=
  remove 10 (remove 13 (remove 9 url)).

Definition _splitparams (url : str) : str * str :=
  if contains (ch "/") url then
    let i := find_from (ch ";") url (rfind (ch "/") url) in
    if i <? 0 then (url, []) else (slice_to i url, slice_from (i + 1) url)
  else
    let i := find (ch ";") url in
    (slice_to i url, slice_from (i + 1) url).

Definition _splitnetloc (url : str) (start : Z) : str * str :=
  let delim :=
    fold_left
      (fun delim c =>
         let wdelim := find_from c url start in
         if 0 <=? wdelim then Z.min delim wdelim else delim)
      [ch "/"; ch "?"; ch "#"] (len url) in
  (slice_to (delim - start) (slice_from start url), slice_from delim url).

Definition hexval (x : N) : option N :=
  if is_digit x then Some (x - 48)%N
  else if (65 <=? x)%N && (x <=? 70)%N then Some (x - 55)%N
  else if (97 <=? x)%N && (x <=? 102)%N then Some (x - 87)%N
  else None.

(** One piece of [string.split(b'%')] after the first: two hexadecimal
    digits become a byte, anything else keeps its percent sign. *)
Definition unquote_item (item : str) : list N :=
  match item with
  | h :: l :: rest =>
      match hexval h, hexval l with
      | Some a, Some b => (16 * a + b)%N :: rest
      | _, _ => ch "%" :: item
      end
  | _ => ch "%" :: item
  end.

(** [unquote_to_bytes] on a string of ASCII characters. *)
Definition unquote_to_bytes (string : str) : list N :=
  match split (ch "%") string with
  | [] => []
  | first :: items => first ++ concat (List.map unquote_item items)
  end.

(** The pieces of [_asciire.split(string)], decoded and joined: each
    maximal run of ASCII characters ([run], kept reversed while it is
    read) goes through [unquote_to_bytes] and the UTF-8 decoder, the
    characters between the runs are kept. *)
Fixpoint unquote_runs (string : str) (run : str) : str :=
  match string with
  | [] => utf8.decode (unquote_to_bytes (rev run))
  | c :: rest =>
      if (c <? 128)%N then unquote_runs rest (c :: run)
      else utf8.decode (unquote_to_bytes (rev run)) ++ c :: unquote_runs rest []
  end.

Definition unquote (string : str) : str :=
  if negb (contains (ch "%") string) then string
  else unquote_runs string [].

(** [parse_qsl(qs, keep_blank_values)], the other arguments at their
    defaults ([strict_parsing=False], [separator='&']). *)
Definition parse_qsl (qs : str) (keep_blank_values : bool) : list (str * str) :=
  let query_args := if truthy qs then split (ch "&") qs else [] in
  flat_map
    (fun name_value =>
       if negb (truthy name_value) then []
       else
         let nv := split1 (ch "=") name_value in
         let nv :=
           match nv with
           | [n; v] => Some (n, v)
           | [n] => if keep_blank_values then Some (n, []) else None
           | _ => None
           end in
         match nv with
         | None => []
         | Some (n, v) =>
             if truthy v || keep_blank_values
             then [(unquote (replace (ch "+") (ch " ") n),
                    unquote (replace (ch "+") (ch " ") v))]
             else []
         end)
    query_args.

(** [parse_qs(qs)]: the dictionary from each name to its values in order. *)
Definition parse_qs (qs : str) : gmap str (list str) :=
  fold_left
    (fun parsed_result '(name, value) =>
       match parsed_result !! name with
       | Some values => <[name := values ++ [value]]> parsed_result
       | None => <[name := [value]]> parsed_result
       end)
    (parse_qsl qs false) ∅.

Section tables.

(** [unicodedata.normalize('NFKC', s)]: the Unicode tables are data of
    the interpreter. *)
Variable NFKC : str -> str.

(** [_check_bracketed_host(hostname)]: the address grammar of module
    [ipaddress] decides whether it returns or raises [ValueError]. *)
Variable _check_bracketed_host : str -> result unit.

Definition _checknetloc (netloc : str) : result unit :=
  if negb (truthy netloc) || isascii netloc then Ok tt
  else
    let n := remove (ch "?") (remove (ch "#") (remove (ch ":") (remove (ch "@") netloc))) in
    let netloc2 := NFKC n in
    if str_eqb n netloc2 then Ok tt
    else if existsb (fun c => contains c netloc2)
              [ch "/"; ch "?"; ch "#"; ch "@"; ch ":"]
    then Raise (Exc ValueError
                  (py "netloc '" ++ netloc
                   ++ py "' contains invalid characters under NFKC normalization"))
    else Ok tt.

Definition _check_bracketed_netloc (netloc : str) : result unit :=
  let hostname_and_port := (rpartition (ch "@") netloc).2 in
  let '(before_bracket, have_open_br, bracketed) :=
    partition (ch "[") hostname_and_port in
  if have_open_br then
    if truthy before_bracket then Raise (Exc ValueError (py "Invalid IPv6 URL"))
    else
      let '(hostname, _, port) := partition (ch "]") bracketed in
      if truthy port && negb (startswith (ch ":") port)
      then Raise (Exc ValueError (py "Invalid IPv6 URL"))
      else _check_bracketed_host hostname
  else
    let '(hostname, _, port) := partition (ch ":") hostname_and_port in
    _check_bracketed_host hostname.

(** [urlsplit(url)] with [scheme=''] and [allow_fragments=True]; the
    five components in the order scheme, netloc, path, query, fragment. *)
Definition urlsplit (url : str) : result (str * str * str * str * str) :=
  let url := lstrip is_c0_control_or_space url in
  let url := remove_unsafe url in
  let i := find (ch ":") url in
  let '(scheme, url) :=
    if (0 <? i)
       && match url with c :: _ => is_ascii_alpha c | [] => false end
       && forallb is_scheme_char (slice_to i url)
    then (lower (slice_to i url), slice_from (i + 1) url)
    else ([], url) in
  '(netloc, url) ←
    (if str_eqb (slice_to 2 url) (py "//") then
       let '(netloc, url) := _splitnetloc url 2 in
       if (contains (ch "[") netloc && negb (contains (ch "]") netloc))
          || (contains (ch "]") netloc && negb (contains (ch "[") netloc))
       then Raise (Exc ValueError (py "Invalid IPv6 URL"))
       else
         (if contains (ch "[") netloc && contains (ch "]") netloc
          then _check_bracketed_netloc netloc
          else Ok tt);;
         Ok (netloc, url)
     else Ok ([], url));
  let '(url, fragment) :=
    if contains (ch "#") url
    then let '(u, _, f) := partition (ch "#") url in (u, f)
    else (url, []) in
  let '(url, query) :=
    if contains (ch "?") url
    then let '(u, _, q) := partition (ch "?") url in (u, q)
    else (url, []) in
  _checknetloc netloc;;
  Ok (scheme, netloc, url, query, fragment).

Definition urlparse (url : str) : result ParseResult :=
  '(scheme, netloc, url, query, fragment) ← urlsplit url;
  let '(url, params) :=
    if bool_decide (scheme ∈ uses_params) && contains (ch ";") url
    then _splitparams url
    else (url, []) in
  Ok {| scheme := scheme; netloc := netloc; path := url;
        params := params; query := query; fragment := fragment |}.

End tables.

End parse.

(** ** [pathlib] on a POSIX system ([PosixPath], separator [/], no drive) *)
Module pathlib.

(** A path object: the fields [_drv], [_root] and [_parts] of [PurePath].
    The first part of an anchored path is its anchor [_drv + _root]. *)
Record PurePath : Type := {
  _drv : str;
  _root : str;
  _parts : list str
}.

Definition sep : N := ch "/".

(** [_PosixFlavour.splitroot(part)] *)
Definition splitroot (part : str) : str * str * str :=
  if startswith sep part then
    let stripped_part := lstrip (N.eqb sep) part in
    if len part - len stripped_part =? 2
    then ([], [sep; sep], stripped_part)
    else ([], [sep], stripped_part)
  else ([], [], part).

(** [Path(text)]: [_Flavour.parse_parts((text,))]. *)
Definition Path (text : str) : PurePath :=
  if negb (truthy text) then {| _drv := []; _root := []; _parts := [] |}
  else
    let '(drv, root, rel) := splitroot text in
    let parsed :=
      List.filter (fun x => truthy x && negb (str_eqb x (py ".")))
        (split sep rel) in
    {| _drv := drv; _root := root;
       _parts := if truthy drv || truthy root
                 then (drv ++ root) :: parsed else parsed |}.

(** [PurePath.name] *)
Definition name (self : PurePath) : str :=
  let parts := _parts self in
  if len parts =? (if truthy (_drv self) || truthy (_root self) then 1 else 0)
  then []
  else List.last parts [].

(** [PurePath.suffix] *)
Definition suffix (self : PurePath) : str :=
  let name := name self in
  let i := rfind (ch ".") name in
  if (0 <? i) && (i <? len name - 1) then slice_from i name else [].

(** [str(path)]: [_format_parsed_parts(...) or '.'] *)
Definition __str__ (self : PurePath) : str :=
  let formatted :=
    if truthy (_drv self) || truthy (_root self)
    then _drv self ++ _root self ++ join sep (List.tl (_parts self))
    else join sep (_parts self) in
  if truthy formatted then formatted else py ".".

Section repr.

(** [repr(s)] of a [str]: quoting and escaping follow the Unicode
    tables of the interpreter. *)
Variable repr : str -> str.

(** [repr(path)] *)
Definition __repr__ (self : PurePath) : str :=
  py "PosixPath(" ++ repr (__str__ self) ++ py ")".

(** [PurePath.with_suffix(suffix)] *)
Definition with_suffix (self : PurePath) (suffix' : str) : result PurePath :=
  if contains sep suffix'
  then Raise (Exc ValueError (py "Invalid suffix " ++ repr suffix'))
  else if (truthy suffix' && negb (startswith (ch ".") suffix'))
          || str_eqb suffix' (py ".")
  then Raise (Exc ValueError (py "Invalid suffix " ++ repr suffix'))
  else
    let name := name self in
    if negb (truthy name)
    then Raise (Exc ValueError (__repr__ self ++ py " has an empty name"))
    else
      let old_suffix := suffix self in
      let name :=
        if negb (truthy old_suffix) then name ++ suffix'
        else slice_to (- len old_suffix) name ++ suffix' in
      Ok {| _drv := _drv self; _root := _root self;
            _parts := List.removelast (_parts self) ++ [name] |}.

End repr.

End pathlib.

(** ** The window and its widgets *)

(** The calls the program makes on its collaborators, in the order made.
    The widgets come from [Design.UI] and from Qt: a line edit is a store
    for its text and the progress bar a store for the value last handed
    to [setValue]; what Qt paints for a value, and what the user does
    while [processEvents] runs, is outside the program. *)
Inductive event : Type :=
  | url_line_edit_setText (text : str)
  | location_line_edit_setText (text : str)
  | progress_bar_setValue (value : Z)
  | processEvents
  | urlretrieve_start (url : str) (filename : pathlib.PurePath)
  | QMessageBox_information (title text : str)
  | QMessageBox_warning (title text : str).

(** The state of the window: the text of the two line edits, the value the
    progress bar was last set to, and the calls made so far (oldest
    first). *)
Record App : Type := {
  url_line_edit : str;
  location_line_edit : str;
  progress_bar : Z;
  calls : list event
}.

(** A method of [App]: it may change the window and it returns or raises. *)
Definition GUI (A : Type) : Type := App -> App * result A.

#[global] Instance GUI_ret : MRet GUI := fun A a self => (self, Ok a).
#[global] Instance GUI_bind : MBind GUI := fun A B k m self =>
  match m self with
  | (self', Ok a) => k a self'
  | (self', Raise e) => (self', Raise e)
  end.

(** A call of a function that does not touch the window. *)
Definition call {A : Type} (r : result A) : GUI A := fun self => (self, r).

(** The window with one more call noted. *)
Definition record (ev : event) (self : App) : App :=
  {| url_line_edit := url_line_edit self;
     location_line_edit := location_line_edit self;
     progress_bar := progress_bar self;
     calls := calls self ++ [ev] |}.

(** [self.url_line_edit.text()] and [self.location_line_edit.text()] *)
Definition url_line_edit_text : GUI str := fun self => (self, Ok (url_line_edit self)).
Definition location_line_edit_text : GUI str :=
  fun self => (self, Ok (location_line_edit self)).

(** [self.url_line_edit.setText(text)] *)
Definition setText_url (text : str) : GUI unit := fun self =>
  (record (url_line_edit_setText text)
     {| url_line_edit := text;
        location_line_edit := location_line_edit self;
        progress_bar := progress_bar self;
        calls := calls self |}, Ok tt).

(** [self.location_line_edit.setText(text)] *)
Definition setText_location (text : str) : GUI unit := fun self =>
  (record (location_line_edit_setText text)
     {| url_line_edit := url_line_edit self;
        location_line_edit := text;
        progress_bar := progress_bar self;
        calls := calls self |}, Ok tt).

(** [self.progress_bar.setValue(value)], for a [value] that fits the C
    [int] the widget takes: the values the program hands over lie between
    [0] and [100] whenever the bytes read are not negative. *)
Definition setValue (value : Z) : GUI unit := fun self =>
  (record (progress_bar_setValue value)
     {| url_line_edit := url_line_edit self;
        location_line_edit := location_line_edit self;
        progress_bar := value;
        calls := calls self |}, Ok tt).

(** A call that changes nothing the program reads back: a message box,
    [QApplication.processEvents()], the start of a transfer. *)
Definition emit (ev : event) : GUI unit := fun self => (record ev self, Ok tt).

(** [try: body except C1: h1 except C2: h2 ...]: the first clause whose
    class test accepts the exception handles it; an exception that no
    clause accepts is raised again. *)
Fixpoint handle (clauses : list ((exception -> bool) * (exception -> GUI unit)))
    (e : exception) : GUI unit :=
  match clauses with
  | [] => call (Raise e)
  | (accepts, handler) :: rest => if accepts e then handler e else handle rest e
  end.

Definition try_except (body : GUI unit)
    (clauses : list ((exception -> bool) * (exception -> GUI unit))) : GUI unit :=
  fun self =>
    match body self with
    | (self', Ok a) => (self', Ok a)
    | (self', Raise e) => handle clauses e self'
    end.

(** What one run of [urllib.request.urlretrieve] does as seen by its
    caller: the progress notifications [(block_number, block_size,
    total_size)] it makes, then it returns ([None]) or raises. *)
Record transfer : Type := {
  notifications : list (Z * Z * Z);
  outcome : option exception
}.

(** ** Observations on the calls of a run *)

(** The calls made between the states [before] and [after]. *)
Definition emitted (before after : App) : list event :=
  drop (length (calls before)) (calls after).

(** The message boxes among the calls, and the calls of [urlretrieve]. *)
Definition is_dialog (ev : event) : bool :=
  match ev with
  | QMessageBox_information _ _ | QMessageBox_warning _ _ => true
  | _ => false
  end.

Definition is_fetch (ev : event) : bool :=
  match ev with
  | urlretrieve_start _ _ => true
  | _ => false
  end.

(** The window after [setValue(v); processEvents()] for each of [values]. *)
Definition shown (values : list Z) (self : App) : App :=
  {| url_line_edit := url_line_edit self;
     location_line_edit := location_line_edit self;
     progress_bar := List.last values (progress_bar self);
     calls := calls self
              ++ flat_map (fun v => [progress_bar_setValue v; processEvents]) values |}.

(** The values handed to [progress_bar.setValue], in order. *)
Definition set_values (evs : list event) : list Z :=
  flat_map (fun ev => match ev with progress_bar_setValue v => [v] | _ => [] end) evs.

(** The values paired with [name], in order. *)
Definition values_of (name : str) (pairs : list (str * str)) : list str :=
  List.map snd (List.filter (fun '(n, _) => str_eqb n name) pairs).

(** The parameters of a query string as the specification speaks of them:
    every [name=value] field with its decoded name and value, blank values
    included. *)
Definition query_parameters (qs : str) : list (str * str) := parse.parse_qsl qs true.

(** The non-empty values of [mediaurl], in the order of the query string. *)
Definition mediaurl_values (qs : str) : list str :=
  List.map snd
    (List.filter (fun '(name, value) => str_eqb name (py "mediaurl") && truthy value)
       (query_parameters qs)).

(** ** Tables for closed examples

    On ASCII text NFKC normalisation is the identity; the examples below
    hold no bracketed host and print no [repr] that needs escaping. *)
Definition NFKC_ascii (s : str) : str := s.
Definition no_bracketed_host (hostname : str) : result unit :=
  Raise (Exc ValueError
           (py "'" ++ hostname ++ py "' does not appear to be an IPv4 or IPv6 address")).
Definition repr_plain (s : str) : str := py "'" ++ s ++ py "'".

(** The window as [__init__] leaves it, with the two fields filled in. *)
Definition window (url location : str) : App :=
  {| url_line_edit := url; location_line_edit := location;
     progress_bar := 0; calls := [] |}.

(** A transfer of 20000 bytes that is refused after two notifications, and
    a network on which every transfer goes that way. *)
Definition refused : transfer :=
  {| notifications := [(0, 8192, 20000); (1, 8192, 20000)];
     outcome := Some (Exc URLError (py "<urlopen error [Errno 111] Connection refused>")) |}.
Definition refusing_network (url : str) (filename : pathlib.PurePath) : transfer :=
  refused.

(** ** The methods of [App] *)
Section App.

(** The tables of the interpreter that [urllib.parse] and [pathlib]
    consult (see [parse._checknetloc], [parse._check_bracketed_netloc]
    and [pathlib.with_suffix]). *)
Variable NFKC : str -> str.
Variable _check_bracketed_host : str -> result unit.
Variable repr : str -> str.

(** The network and the file system: the run of [urlretrieve] for a URL
    and a destination. *)
Variable network : str -> pathlib.PurePath -> transfer.

(** [urllib.parse.urlparse] *)
Definition urlparse : str -> result parse.ParseResult :=
  parse.urlparse NFKC _check_bracketed_host.

(** [values[0]] *)
Definition getitem0 {A : Type} (values : list A) : result A :=
  match values with
  | x :: _ => Ok x
  | [] => Raise (Exc IndexError (py "list index out of range"))
  end.

(** [App.extract_media_url], lines 46 to 62.  [params.get('mediaurl',
    [None])] is the list of the values of the parameter, or the list that
    holds [None]. *)
Definition extract_media_url (url : str) : result str :=
  parsed_url ← urlparse url;
  let params := parse.parse_qs (parse.query parsed_url) in
  media_url ← getitem0 (match params !! py "mediaurl" with
                        | Some values => List.map Some values
                        | None => [None]
                        end);
  Ok (match media_url with
      | Some media_url => if truthy media_url then media_url else url
      | None => url
      end).

(** [App.has_extension], lines 64 to 76. *)
Definition has_extension (file_path : pathlib.PurePath) : bool :=
  negb (str_eqb (pathlib.suffix file_path) []).

(** [App.handle_progress], lines 113 to 133. *)
Definition handle_progress (block_number block_size total_size : Z) : GUI unit :=
  let read := block_number * block_size in
  (if 0 <? total_size then
     percent ← call (int_truediv (read * 100) total_size);
     let percent := if 100 <? percent then 100 else percent in
     setValue percent;;
     emit processEvents
   else mret tt);;
  if total_size <=? read then
    setValue 100;;
    emit processEvents
  else mret tt.

(** The notifications of a transfer go to the hook one by one; an
    exception of the hook ends the transfer. *)
Fixpoint report (reporthook : Z -> Z -> Z -> GUI unit)
    (blocks : list (Z * Z * Z)) : GUI unit :=
  match blocks with
  | [] => mret tt
  | (block_number, block_size, total_size) :: rest =>
      reporthook block_number block_size total_size;;
      report reporthook rest
  end.

(** [urllib.request.urlretrieve(url, filename, reporthook)] as the
    network has it run. *)
Definition urlretrieve (url : str) (filename : pathlib.PurePath)
    (reporthook : Z -> Z -> Z -> GUI unit) : GUI unit :=
  emit (urlretrieve_start url filename);;
  report reporthook (notifications (network url filename));;
  match outcome (network url filename) with
  | None => mret tt
  | Some e => call (Raise e)
  end.

(** [App.download], lines 78 to 103. *)
Definition download : GUI unit :=
  text ← url_line_edit_text;
  url ← call (extract_media_url text);
  text ← location_line_edit_text;
  let location := pathlib.Path text in
  location ←
    (if negb (has_extension location) then
       parsed ← call (urlparse url);
       let extension := pathlib.suffix (pathlib.Path (parse.path parsed)) in
       call (pathlib.with_suffix repr location extension)
     else mret location);
  setText_url [];;
  setText_location [];;
  try_except
    (urlretrieve url location handle_progress;;
     emit (QMessageBox_information (py "Download Completed")
             (py "The Download Completed Successfully"));;
     setValue 0)
    [ (is_URLError,
       fun e => emit (QMessageBox_warning (py "Download Error")
                        (py "Failed to download the file. Error: " ++ exc_str e)));
      (fun _ => true,
       fun e => emit (QMessageBox_warning (py "Download Error")
                        (py "An error occurred: " ++ exc_str e))) ].

(** *** Named parts of [download] *)

(** Lines 87 to 89: the destination path given its extension. *)
Definition normalize (location : pathlib.PurePath) (url : str)
    : result pathlib.PurePath :=
  if negb (has_extension location) then
    parsed ← urlparse url;
    let extension := pathlib.suffix (pathlib.Path (parse.path parsed)) in
    pathlib.with_suffix repr location extension
  else Ok location.

(** Lines 84 to 89: everything [download] computes before it touches a
    widget, the effective URL and the final destination. *)
Definition prepare (self : App) : result (str * pathlib.PurePath) :=
  url ← extract_media_url (url_line_edit self);
  location ← normalize (pathlib.Path (location_line_edit self)) url;
  Ok (url, location).

(** Lines 91 and 92: the window when the transfer begins. *)
Definition cleared (self : App) : App :=
  (setText_location [] (setText_url [] self).1).1.

(** Line 95 on the cleared window: the window when [urlretrieve] ends,
    and how it ended. *)
Definition fetch (self : App) (url : str) (location : pathlib.PurePath)
    : App * result unit :=
  urlretrieve url location handle_progress (cleared self).

(** *** The other slot of the window, and transfers as [urlretrieve]
    reports them *)

(** [App.browse], lines 105 to 111.  [answer] is what the modal
    [QFileDialog.getSaveFileName] returns: the file name the user chose
    and the selected filter, both empty when the dialog is cancelled. *)
Definition browse (answer : str * str) : GUI unit :=
  let location := answer.1 in
  setText_location location.

(** The notifications [urlretrieve] makes while it reads [n] blocks: the
    block numbers [0] to [n], with one block size and one total. *)
Definition blocks_read (n : nat) (block_size total_size : Z) : list (Z * Z * Z) :=
  List.map (fun k => (Z.of_nat k, block_size, total_size)) (seq 0 (S n)).

(** The least quotient that no finite double is nearest to. *)
Definition overflow_threshold : Z := 2 ^ 1024 - 2 ^ 970.

(** A notification whose percentage, if any is due, can be computed: the
    total is not positive, or the quotient [read * 100 / total_size] rounds
    to a finite double. *)
Definition computable (block : Z * Z * Z) : Prop :=
  let '(block_number, block_size, total_size) := block in
  total_size <= 0
  \/ Z.abs (block_number * block_size * 100) < overflow_threshold * total_size.

(** The percentage of [read] bytes out of [total_size], as the callback
    shows it while the division is exact. *)
Definition percent_of (read total_size : Z) : Z := Z.min 100 (read * 100 / total_size).

(** A transfer of 20000 bytes that [urlretrieve] reads to the end in
    blocks of 8192, and a network on which every transfer goes that way. *)
Definition completed : transfer :=
  {| notifications := blocks_read 3 8192 20000; outcome := None |}.
Definition serving_network (url : str) (filename : pathlib.PurePath) : transfer :=
  completed.

(** A transfer whose connection is reset while the body is read, after
    two notifications: [urlretrieve] reads the body outside the handler
    that turns an [OSError] into a [URLError], so the [ConnectionResetError]
    leaves it as the [OSError] it is.  And a network on which every
    transfer goes that way. *)
Definition reset : transfer :=
  {| notifications := [(0, 8192, 20000); (1, 8192, 20000)];
     outcome := Some (Exc OSError (py "[Errno 104] Connection reset by peer")) |}.
Definition resetting_network (url : str) (filename : pathlib.PurePath) : transfer :=
  reset.

(** A transfer that reports more bytes read than a double can hold a
    percentage of, and a network on which every transfer goes that way. *)
Definition oversized : transfer :=
  {| notifications := [(0, 8192, 1); (2 ^ 1024, 1, 1)]; outcome := None |}.
Definition oversized_network (url : str) (filename : pathlib.PurePath) : transfer :=
  oversized.

(** * Proofs *)

(** ** Rounding and truncation of a quotient *)

Lemma round_half_even_floor n d :
  0 <= n -> 0 < d -> n / d <= Float64.round_half_even n d.
Proof.
  intros Hn Hd. unfold Float64.round_half_even.
  destruct (2 * (n mod d) ?= d); [destruct (Z.even (n / d)) | |]; lia.
Qed.

Lemma round_half_even_near n d :
  0 <= n -> 0 < d ->
  2 * Float64.round_half_even n d * d <= 2 * n + d.
Proof.
  intros Hn Hd. unfold Float64.round_half_even.
  pose proof (Z.div_mod n d ltac:(lia)) as E.
  pose proof (Z.mod_pos_bound n d Hd) as B.
  destruct (Z.compare_spec (2 * (n mod d)) d) as [C|C|C];
    [destruct (Z.even (n / d))| |]; nia.
Qed.


Lemma scaled_eq n : Float64.scaled n = n * 2 ^ 1074.
Proof. reflexivity. Qed.

Lemma ulp_shift_nonneg n d : 0 <= Float64.ulp_shift n d.
Proof. unfold Float64.ulp_shift. lia. Qed.

(** A positive shift means the quotient has more than [prec] bits. *)
Lemma ulp_shift_pos n d :
  0 <= n -> 0 < d -> 0 < Float64.ulp_shift n d ->
  2 ^ 52 * 2 ^ Float64.ulp_shift n d * d <= Float64.scaled n.
Proof.
  intros Hn Hd. unfold Float64.ulp_shift, Float64.prec.
  set (X := Float64.scaled n / d). intros Hs.
  assert (HL : 53 <= Z.log2 X) by lia.
  assert (HX : 0 < X).
  { destruct (Z.le_gt_cases X 0) as [H0|H0]; [|exact H0].
    rewrite (Z.log2_nonpos X H0) in HL. lia. }
  destruct (Z.log2_spec X HX) as [Hlo _].
  replace (Z.max 0 (Z.log2 X - (53 - 1))) with (Z.log2 X - 52) by lia.
  rewrite <- Z.pow_add_r by lia.
  replace (52 + (Z.log2 X - 52)) with (Z.log2 X) by lia.
  assert (Hm : d * X <= Float64.scaled n).
  { apply Z.mul_div_le. exact Hd. }
  nia.
Qed.

(** A quotient below [2 ^ (k + prec)] least units is rounded no higher
    than [k] places above [emin]. *)
Lemma ulp_shift_le n d k :
  0 <= n -> 0 < d -> 0 <= k ->
  Float64.scaled n < 2 ^ (k + 53) * d ->
  Float64.ulp_shift n d <= k.
Proof.
  intros Hn Hd Hk Hlt. unfold Float64.ulp_shift, Float64.prec.
  set (X := Float64.scaled n / d).
  assert (HX : X < 2 ^ (k + 53)).
  { apply Z.div_lt_upper_bound; [exact Hd|]. lia. }
  destruct (Z.le_gt_cases X 0) as [H0|H0].
  - rewrite (Z.log2_nonpos X H0). lia.
  - apply Z.log2_lt_pow2 in HX; [lia | exact H0].
Qed.


(** The finite result of [truediv], unfolded. *)
Lemma int_truediv_finite a b :
  b <> 0 ->
  Float64.too_large
    (Float64.round_at (Float64.ulp_shift (Z.abs a) (Z.abs b)) (Z.abs a) (Z.abs b))
    (Float64.ulp_shift (Z.abs a) (Z.abs b)) = false ->
  int_truediv a b =
    Ok (let magnitude :=
          Float64.round_at (Float64.ulp_shift (Z.abs a) (Z.abs b)) (Z.abs a) (Z.abs b)
          * 2 ^ Float64.ulp_shift (Z.abs a) (Z.abs b) / 2 ^ 1074 in
        if Z.sgn a * Z.sgn b >=? 0 then magnitude else - magnitude).
Proof.
  intros Hb Hfin. unfold int_truediv, Float64.truediv.
  destruct (Z.eqb_spec b 0) as [E|_]; [contradiction|].
  cbv zeta. rewrite Hfin. cbn [rbind]. f_equal.
  unfold Float64.to_int. cbn [Float64.negative Float64.mant Float64.expo].
  replace (Float64.emin + Float64.ulp_shift (Z.abs a) (Z.abs b) - Float64.emin)
    with (Float64.ulp_shift (Z.abs a) (Z.abs b)) by lia.
  change (- Float64.emin) with 1074.
  destruct (Z.sgn a * Z.sgn b >=? 0); reflexivity.
Qed.

(** With [q] the floor of [n / d], the quotient rounded at [shift] stays
    below [q + 1] when the divisor is small against the scale: its
    distance to [q + 1], at least [1 / d], is then more than half a unit
    of the last place. *)
Lemma round_at_between n d shift q :
  0 <= n -> 0 < d -> 0 <= shift <= 1074 ->
  d * q <= n < d * (q + 1) ->
  d * 2 ^ shift < 2 * 2 ^ 1074 ->
  q * 2 ^ 1074 <= Float64.round_at shift n d * 2 ^ shift < (q + 1) * 2 ^ 1074.
Proof.
  intros Hn Hd Hs Hq Hsmall. unfold Float64.round_at.
  rewrite scaled_eq.
  assert (HP : 2 ^ 1074 = 2 ^ shift * 2 ^ (1074 - shift)).
  { rewrite <- Z.pow_add_r by lia. f_equal. lia. }
  assert (HS : 0 < 2 ^ shift) by (apply Z.pow_pos_nonneg; lia).
  assert (HR : 0 < 2 ^ (1074 - shift)) by (apply Z.pow_pos_nonneg; lia).
  revert HP Hsmall.
  generalize (2 ^ 1074). intros P.
  generalize dependent (2 ^ (1074 - shift)). intros R HR.
  generalize dependent (2 ^ shift). intros S HS HP Hsmall. subst P.
  assert (HD : 0 < d * S) by nia.
  pose proof (round_half_even_floor (n * (S * R)) (d * S) ltac:(nia) HD) as Hlo.
  pose proof (round_half_even_near (n * (S * R)) (d * S) ltac:(nia) HD) as Hhi.
  set (m := Float64.round_half_even (n * (S * R)) (d * S)) in *.
  assert (Hfloor : q * R <= n * (S * R) / (d * S)).
  { apply Z.div_le_lower_bound; [exact HD|]. nia. }
  split; [nia|].
  destruct (Z.lt_ge_cases (m * S) ((q + 1) * (S * R))) as [Hlt|Hge]; [exact Hlt|].
  exfalso.
  assert (d * (m * S) >= d * ((q + 1) * (S * R))) by nia.
  nia.
Qed.


(** Where the numerator is below [2 ^ 53], dividing, rounding to a
    double and truncating gives the floor of the exact quotient. *)
Lemma int_truediv_floor a b :
  0 <= a < 2 ^ 53 -> 0 < b -> int_truediv a b = Ok (a / b).
Proof.
  intros Ha Hb.
  assert (Hsc : Float64.scaled a < 2 ^ 53 * 2 ^ 1074).
  { rewrite scaled_eq. assert (0 < 2 ^ 1074) by (apply Z.pow_pos_nonneg; lia). nia. }
  assert (Hs : 0 <= Float64.ulp_shift a b <= 1074).
  { split; [apply ulp_shift_nonneg|].
    apply ulp_shift_le; lia. }
  assert (Hq : b * (a / b) <= a < b * (a / b + 1)).
  { split; [apply Z.mul_div_le; lia|].
    pose proof (Z.mul_succ_div_gt a b Hb). lia. }
  assert (Hfinite :
    a / b * 2 ^ 1074
    <= Float64.round_at (Float64.ulp_shift a b) a b * 2 ^ Float64.ulp_shift a b
    < (a / b + 1) * 2 ^ 1074).
  { destruct (Z.lt_ge_cases (b * 2 ^ Float64.ulp_shift a b) (2 * 2 ^ 1074))
      as [Hsmall|Hbig].
    - apply round_at_between; lia.
    - (* the divisor exceeds every numerator: the quotient rounds to a
         significand of at most 52 bits at the least exponent *)
      assert (H0 : Float64.ulp_shift a b = 0).
      { destruct (Z.eq_dec (Float64.ulp_shift a b) 0) as [E|E]; [exact E|].
        pose proof (ulp_shift_pos a b ltac:(lia) Hb ltac:(lia)) as Hp.
        change (2 ^ 53) with (2 * 2 ^ 52) in Hsc.
        assert (0 < 2 ^ Float64.ulp_shift a b) by (apply Z.pow_pos_nonneg; lia).
        nia. }
      rewrite H0 in *. change (2 ^ 0) with 1 in *.
      unfold Float64.round_at. change (2 ^ 0) with 1.
      pose proof (round_half_even_floor (Float64.scaled a) (b * 1)
                    ltac:(rewrite scaled_eq; nia) ltac:(lia)) as Hlo.
      pose proof (round_half_even_near (Float64.scaled a) (b * 1)
                    ltac:(rewrite scaled_eq; nia) ltac:(lia)) as Hhi.
      set (m := Float64.round_half_even (Float64.scaled a) (b * 1)) in *.
      assert (Hdiv : a / b = 0).
      { apply Z.div_small. assert (0 < 2 ^ 1074) by (apply Z.pow_pos_nonneg; lia).
        change (2 ^ 53) with 9007199254740992 in *. nia. }
      assert (Hnn : 0 <= Float64.scaled a / (b * 1)).
      { apply Z.div_pos; [rewrite scaled_eq; nia | lia]. }
      rewrite Hdiv.
      assert (Hm : m <= 2 ^ 52).
      { change (2 ^ 53) with (2 * 2 ^ 52) in Hsc.
        assert (0 < 2 ^ 52) by (apply Z.pow_pos_nonneg; lia).
        assert (0 < 2 ^ 1074) by (apply Z.pow_pos_nonneg; lia).
        nia. }
      assert (2 ^ 52 < 2 ^ 1074) by (apply Z.pow_lt_mono_r; lia).
      lia. }
  rewrite int_truediv_finite.
  - rewrite !Z.abs_eq by lia. cbv zeta.
    replace (Z.sgn a * Z.sgn b >=? 0) with true.
    + f_equal. symmetry.
      assert (0 < 2 ^ 1074) by (apply Z.pow_pos_nonneg; lia).
      apply Z.div_unique with
        (r := Float64.round_at (Float64.ulp_shift a b) a b * 2 ^ Float64.ulp_shift a b
              - a / b * 2 ^ 1074); lia.
    + symmetry. apply Z.geb_le.
      rewrite (Z.sgn_pos b) by lia. pose proof (Z.sgn_nonneg a). lia.
  - lia.
  - rewrite !Z.abs_eq by lia. unfold Float64.too_large.
    apply Z.leb_gt.
    change (2 ^ (Float64.emax - Float64.emin)) with (2 ^ 1024 * 2 ^ 1074).
    assert (a / b + 1 <= 2 ^ 53).
    { assert (a / b <= a) by (apply Z.div_le_upper_bound; nia). lia. }
    assert (2 ^ 53 < 2 ^ 1024) by (apply Z.pow_lt_mono_r; lia).
    assert (0 < 2 ^ 1074) by (apply Z.pow_pos_nonneg; lia).
    nia.
Qed.


(** The quotient rounds to a finite double exactly when it lies below
    the midpoint between the largest double, [(2 ^ 53 - 1) * 2 ^ 971],
    and [2 ^ 1024]: that is, below [(2 ^ 54 - 1) * 2 ^ 970]. *)
Lemma round_at_finite n d :
  0 <= n -> 0 < d -> n < (2 ^ 54 - 1) * 2 ^ 970 * d ->
  Float64.too_large (Float64.round_at (Float64.ulp_shift n d) n d)
    (Float64.ulp_shift n d) = false.
Proof.
  intros Hn Hd Hlt. unfold Float64.too_large. apply Z.leb_gt.
  change (2 ^ (Float64.emax - Float64.emin)) with (2 ^ 54 * 2 ^ 2044).
  assert (Hsc : Float64.scaled n < (2 ^ 54 - 1) * 2 ^ 2044 * d).
  { rewrite scaled_eq. change (2 ^ 2044) with (2 ^ 970 * 2 ^ 1074).
    assert (0 < 2 ^ 1074) by (apply Z.pow_pos_nonneg; lia). nia. }
  assert (Hs : 0 <= Float64.ulp_shift n d <= 2045).
  { split; [apply ulp_shift_nonneg|].
    apply ulp_shift_le; lia. }
  assert (HS : 0 < 2 ^ Float64.ulp_shift n d <= 2 * 2 ^ 2044).
  { split; [apply Z.pow_pos_nonneg; lia|].
    change (2 * 2 ^ 2044) with (2 ^ 2045). apply Z.pow_le_mono_r; lia. }
  unfold Float64.round_at.
  assert (H0 : 0 <= Float64.scaled n).
  { rewrite scaled_eq. assert (0 < 2 ^ 1074) by (apply Z.pow_pos_nonneg; lia). nia. }
  pose proof (round_half_even_near (Float64.scaled n)
                (d * 2 ^ Float64.ulp_shift n d) H0 ltac:(nia)) as Hhi.
  revert Hsc HS Hhi.
  generalize (Float64.round_half_even (Float64.scaled n)
                (d * 2 ^ Float64.ulp_shift n d)).
  generalize (Float64.scaled n).
  generalize (2 ^ Float64.ulp_shift n d).
  assert (HB : 0 < 2 ^ 2044) by (apply Z.pow_pos_nonneg; lia).
  revert HB. generalize (2 ^ 2044).
  change (2 ^ 54) with 18014398509481984.
  intros B HB S N m Hsc HS Hhi.
  destruct (Z.lt_ge_cases (m * S) (18014398509481984 * B)) as [H|H]; [exact H|].
  exfalso.
  assert (d * (2 * (m * S)) >= d * (2 * (18014398509481984 * B))) by nia.
  nia.
Qed.


Lemma ulp_shift_ge n d k :
  0 < d -> 0 <= k -> 2 ^ (k + 52) * d <= Float64.scaled n ->
  k <= Float64.ulp_shift n d.
Proof.
  intros Hd Hk Hle. unfold Float64.ulp_shift, Float64.prec.
  set (X := Float64.scaled n / d).
  assert (Hp : 0 < 2 ^ (k + 52)) by (apply Z.pow_pos_nonneg; lia).
  assert (HX : 2 ^ (k + 52) <= X).
  { apply Z.div_le_lower_bound; [exact Hd|]. lia. }
  apply Z.log2_le_pow2 in HX; lia.
Qed.

Lemma round_at_too_large n d :
  0 < d -> (2 ^ 54 - 1) * 2 ^ 970 * d <= n ->
  Float64.too_large (Float64.round_at (Float64.ulp_shift n d) n d)
    (Float64.ulp_shift n d) = true.
Proof.
  intros Hd Hge. unfold Float64.too_large. apply Z.leb_le.
  change (2 ^ (Float64.emax - Float64.emin)) with (2 ^ 54 * 2 ^ 2044).
  assert (HB : 0 < 2 ^ 2044) by (apply Z.pow_pos_nonneg; lia).
  assert (Hsc : (2 ^ 54 - 1) * 2 ^ 2044 * d <= Float64.scaled n).
  { rewrite scaled_eq. change (2 ^ 2044) with (2 ^ 970 * 2 ^ 1074).
    assert (0 < 2 ^ 1074) by (apply Z.pow_pos_nonneg; lia). nia. }
  assert (Hn : 0 <= n).
  { assert (0 < 2 ^ 970) by (apply Z.pow_pos_nonneg; lia). nia. }
  assert (Hs : 2045 <= Float64.ulp_shift n d).
  { apply ulp_shift_ge; lia. }
  assert (H0 : 0 <= Float64.scaled n) by nia.
  destruct (Z.eq_dec (Float64.ulp_shift n d) 2045) as [E|E].
  - rewrite E. unfold Float64.round_at, Float64.round_half_even.
    change (2 ^ 2045) with (2 * 2 ^ 2044).
    revert Hsc H0 HB. generalize (Float64.scaled n). generalize (2 ^ 2044).
    intros B N Hsc H0 HB.
    assert (HD : 0 < d * (2 * B)) by nia.
    pose proof (Z.div_mod N (d * (2 * B)) ltac:(lia)) as Hdm.
    pose proof (Z.mod_pos_bound N (d * (2 * B)) HD) as Hr.
    assert (Hq : 2 ^ 53 - 1 <= N / (d * (2 * B))).
    { apply Z.div_le_lower_bound; [exact HD|]. nia. }
    destruct (Z.eq_dec (N / (d * (2 * B))) (2 ^ 53 - 1)) as [Eq|Ne].
    + rewrite Eq in *.
      assert (Hrem : d * B <= N mod (d * (2 * B))) by nia.
      destruct (Z.compare_spec (2 * (N mod (d * (2 * B)))) (d * (2 * B))) as [C|C|C].
      * change (Z.even (2 ^ 53 - 1)) with false. cbv iota.
        change (2 ^ 54) with (2 * 2 ^ 53). clear. lia.
      * revert C Hrem. generalize (N mod (d * (2 * B))). intros r C Hrem. nia.
      * change (2 ^ 54) with (2 * 2 ^ 53). clear. lia.
    + assert (Hq' : 2 ^ 53 <= N / (d * (2 * B))) by lia.
      change (2 ^ 54) with (2 * 2 ^ 53).
      clear Hge Hs E Hsc Hdm Hr Hq Ne.
      destruct (2 * (N mod (d * (2 * B))) ?= d * (2 * B));
        [destruct (Z.even (N / (d * (2 * B))))| |]; nia.
  - pose proof (ulp_shift_pos n d Hn Hd ltac:(lia)) as Hp.
    assert (HS : 2 ^ 2046 <= 2 ^ Float64.ulp_shift n d)
      by (apply Z.pow_le_mono_r; lia).
    change (2 ^ 2046) with (4 * 2 ^ 2044) in HS.
    unfold Float64.round_at.
    assert (HD : 0 < d * 2 ^ Float64.ulp_shift n d) by nia.
    pose proof (round_half_even_floor (Float64.scaled n)
                  (d * 2 ^ Float64.ulp_shift n d) H0 HD) as Hlo.
    assert (Hq : 2 ^ 52 <= Float64.scaled n / (d * 2 ^ Float64.ulp_shift n d)).
    { apply Z.div_le_lower_bound; [exact HD|]. lia. }
    change (2 ^ 54) with (4 * 2 ^ 52).
    assert (0 < 2 ^ 52) by (apply Z.pow_pos_nonneg; lia).
    nia.
Qed.


(** ** The progress callback *)

Lemma shown_nil self : shown [] self = self.
Proof. destruct self. unfold shown. cbn. by rewrite app_nil_r. Qed.

Lemma shown_app vs ws self : shown ws (shown vs self) = shown (vs ++ ws) self.
Proof.
  unfold shown. cbn. f_equal.
  - destruct ws as [|w ws] using rev_ind; [by rewrite app_nil_r|].
    by rewrite app_assoc, !List.last_last.
  - by rewrite flat_map_app, app_assoc.
Qed.

Lemma setValue_processEvents v self :
  (setValue v;; emit processEvents) self = (shown [v] self, Ok tt).
Proof.
  unfold shown, setValue, emit, record, mbind, GUI_bind. cbn.
  by rewrite <- app_assoc.
Qed.

Lemma emitted_shown vs self :
  emitted self (shown vs self)
  = flat_map (fun v => [progress_bar_setValue v; processEvents]) vs.
Proof. unfold emitted, shown. cbn. by rewrite drop_app_length. Qed.

Lemma set_values_shown vs self : set_values (emitted self (shown vs self)) = vs.
Proof.
  rewrite emitted_shown. unfold set_values.
  induction vs as [|v vs IH]; [done|].
  cbn. by f_equal.
Qed.

(** The values a notification shows: the clamped percentage when the
    total is known, then [100] when the bytes read reach the total. *)
Lemma handle_progress_eq block_number block_size total_size self :
  handle_progress block_number block_size total_size self =
    let read := block_number * block_size in
    let full := if total_size <=? read then [100] else [] in
    if 0 <? total_size then
      match int_truediv (read * 100) total_size with
      | Ok percent =>
          (shown ((if 100 <? percent then 100 else percent) :: full) self, Ok tt)
      | Raise e => (self, Raise e)
      end
    else (shown full self, Ok tt).
Proof.
  unfold handle_progress. cbv zeta.
  destruct (0 <? total_size).
  - unfold mbind at 1. unfold GUI_bind.
    unfold mbind at 1. unfold GUI_bind. unfold call at 1.
    destruct (int_truediv (block_number * block_size * 100) total_size) as [p|e];
      [|reflexivity].
    rewrite setValue_processEvents.
    destruct (total_size <=? block_number * block_size).
    + rewrite setValue_processEvents. by rewrite shown_app.
    + reflexivity.
  - unfold mbind at 1. unfold GUI_bind. unfold mret at 1. unfold GUI_ret.
    destruct (total_size <=? block_number * block_size).
    + by rewrite setValue_processEvents.
    + by rewrite shown_nil.
Qed.


(** With a total that is not positive no percentage is computed; the
    indicator is still set to [100] when the bytes read reach the total,
    which is the case for every notification of a transfer of unknown
    size ([total_size = -1], [read >= 0]). *)
Lemma handle_progress_nonpositive_total block_number block_size total_size self :
  total_size <= 0 ->
  handle_progress block_number block_size total_size self =
    (shown (if total_size <=? block_number * block_size then [100] else []) self,
     Ok tt).
Proof.
  intros Ht. rewrite handle_progress_eq. cbv zeta.
  destruct (Z.ltb_spec 0 total_size) as [H|H]; [lia|reflexivity].
Qed.

(** C1, the code at the first notification of a transfer whose size is
    unknown, [(0, 8192, -1)]: the claim has the progress indicator left
    unchanged for every [total_size <= 0]; the code sets it to [100]. *)
Theorem handle_progress_unknown_size_sets_100 self :
  handle_progress 0 8192 (-1) self = (shown [100] self, Ok tt)
  /\ progress_bar (shown [100] self) = 100
  /\ set_values (emitted self (shown [100] self)) = [100].
Proof.
  split; [|split].
  - by rewrite handle_progress_nonpositive_total.
  - reflexivity.
  - apply set_values_shown.
Qed.

(** C2, amended: no value above [100] is ever handed to the progress
    indicator, and whenever [block_number * block_size >= total_size > 0]
    and the quotient [read * 100 / total_size] is below the overflow
    threshold of a double, [2 ^ 1024 - 2 ^ 970], the callback returns
    with the indicator at exactly [100], the last value it was set to. *)
Theorem handle_progress_at_most_100 block_number block_size total_size self :
  Forall (fun v => v <= 100)
    (set_values
       (emitted self (handle_progress block_number block_size total_size self).1))
  /\ (0 < total_size ->
      total_size <= block_number * block_size ->
      block_number * block_size * 100 < (2 ^ 1024 - 2 ^ 970) * total_size ->
      exists self',
        handle_progress block_number block_size total_size self = (self', Ok tt)
        /\ progress_bar self' = 100
        /\ List.last (set_values (emitted self self')) 0 = 100).
Proof.
  rewrite handle_progress_eq. cbv zeta. split.
  - destruct (0 <? total_size).
    + destruct (int_truediv _ _) as [p|e]; cbn [fst].
      * rewrite set_values_shown. constructor.
        { destruct (Z.ltb_spec 100 p); lia. }
        destruct (total_size <=? _); repeat (constructor; try lia).
      * unfold emitted. rewrite drop_all. constructor.
    + cbn [fst]. rewrite set_values_shown.
      destruct (total_size <=? _); repeat (constructor; try lia).
  - intros Ht Hfull Hfin.
    destruct (Z.ltb_spec 0 total_size) as [_|H]; [|lia].
    destruct (Z.leb_spec total_size (block_number * block_size)) as [_|H]; [|lia].
    rewrite int_truediv_finite.
    + eexists. split; [reflexivity|]. split; [reflexivity|].
      by rewrite set_values_shown.
    + lia.
    + rewrite (Z.abs_eq total_size) by lia.
      apply round_at_finite; [lia|lia|].
      rewrite Z.abs_eq by lia.
      change ((2 ^ 54 - 1) * 2 ^ 970) with (2 ^ 1024 - 2 ^ 970). exact Hfin.
Qed.

(** At and above the overflow threshold the division raises, and the
    callback with it: nothing is shown. *)
Lemma handle_progress_overflows block_number block_size total_size self :
  0 < total_size ->
  (2 ^ 1024 - 2 ^ 970) * total_size <= block_number * block_size * 100 ->
  handle_progress block_number block_size total_size self
  = (self, Raise (Exc OverflowError
                    (py "integer division result too large for a float"))).
Proof.
  intros Ht Hbig. rewrite handle_progress_eq. cbv zeta.
  destruct (Z.ltb_spec 0 total_size) as [_|H]; [|lia].
  unfold int_truediv, Float64.truediv.
  destruct (Z.eqb_spec total_size 0) as [E|_]; [lia|].
  cbv zeta. rewrite (Z.abs_eq total_size) by lia.
  assert (Hread : 0 <= block_number * block_size * 100).
  { assert (0 < 2 ^ 1024 - 2 ^ 970) by (vm_compute; reflexivity). nia. }
  rewrite Z.abs_eq by exact Hread.
  rewrite round_at_too_large; [reflexivity|lia|].
  change ((2 ^ 54 - 1) * 2 ^ 970) with (2 ^ 1024 - 2 ^ 970). exact Hbig.
Qed.

(** C7, amended: for [total_size > 0], bytes read that are not negative
    and [read * 100 < 2 ^ 53] (so that the division is exact enough),
    the percentage the callback computes and first shows is
    [floor (read * 100 / total_size)] clamped to [100], and the
    indicator is left at that value. *)
Theorem handle_progress_percentage block_number block_size total_size self :
  0 < total_size ->
  0 <= block_number * block_size ->
  block_number * block_size * 100 < 2 ^ 53 ->
  exists self',
    handle_progress block_number block_size total_size self = (self', Ok tt)
    /\ head (set_values (emitted self self'))
       = Some (Z.min 100 (block_number * block_size * 100 / total_size))
    /\ progress_bar self'
       = Z.min 100 (block_number * block_size * 100 / total_size).
Proof.
  intros Ht Hread Hsmall. rewrite handle_progress_eq. cbv zeta.
  destruct (Z.ltb_spec 0 total_size) as [_|H]; [|lia].
  rewrite int_truediv_floor by lia.
  set (q := block_number * block_size * 100 / total_size).
  assert (Hclamp : (if 100 <? q then 100 else q) = Z.min 100 q).
  { destruct (Z.ltb_spec 100 q); lia. }
  rewrite Hclamp. eexists. split; [reflexivity|].
  rewrite set_values_shown. split; [reflexivity|].
  unfold shown. cbn [progress_bar].
  destruct (Z.leb_spec total_size (block_number * block_size)) as [Hfull|Hpart].
  - cbn. assert (100 <= q); [|lia].
    apply Z.div_le_lower_bound; lia.
  - reflexivity.
Qed.


(** ** Query strings *)

Lemma truthy_nonempty {A} (s : list A) : truthy s = true <-> s <> [].
Proof. destruct s; cbn; split; congruence. Qed.

Lemma truthy_app_cons (s t : str) c : truthy (s ++ c :: t) = true.
Proof. by destruct s. Qed.

(** Decoding never loses a non-empty input. *)
Lemma utf8_decode_truthy bs : truthy (utf8.decode bs) = truthy bs.
Proof.
  destruct bs as [|b0 r1]; [reflexivity|]. cbn [utf8.decode truthy].
  repeat match goal with
         | |- context [if ?c then _ else _] => destruct c
         | |- context [match ?l with [] => _ | _ :: _ => _ end] => destruct l
         end; reflexivity.
Qed.

Lemma unquote_item_truthy item : truthy (parse.unquote_item item) = true.
Proof.
  unfold parse.unquote_item.
  destruct item as [|h [|l rest]]; try reflexivity.
  destruct (parse.hexval h), (parse.hexval l); reflexivity.
Qed.

Lemma split_truthy c s :
  match split c s with
  | [] => False
  | first :: items => truthy s = truthy first || truthy items
  end.
Proof.
  induction s as [|x s IH]; [reflexivity|]. cbn [split].
  destruct (split c s) as [|h t]; [contradiction|].
  destruct (N.eqb x c); reflexivity.
Qed.

Lemma unquote_to_bytes_truthy s : truthy (parse.unquote_to_bytes s) = truthy s.
Proof.
  unfold parse.unquote_to_bytes. pose proof (split_truthy (ch "%") s) as H.
  destruct (split (ch "%") s) as [|first items]; [contradiction|].
  rewrite H. destruct first as [|x first]; [|reflexivity]. cbn [app truthy orb].
  destruct items as [|item items]; [reflexivity|]. cbn [List.map concat].
  pose proof (unquote_item_truthy item) as Hi.
  destruct (parse.unquote_item item); [discriminate|reflexivity].
Qed.

Lemma unquote_runs_truthy s run :
  truthy (parse.unquote_runs s run) = truthy s || truthy run.
Proof.
  revert run. induction s as [|c s IH]; intros run; cbn [parse.unquote_runs].
  - rewrite utf8_decode_truthy, unquote_to_bytes_truthy.
    destruct run as [|r run] using rev_ind; [reflexivity|].
    rewrite rev_app_distr. by destruct run.
  - destruct (c <? 128)%N.
    + rewrite IH. cbn. by rewrite orb_true_r.
    + by rewrite truthy_app_cons.
Qed.

(** [unquote] of a non-empty string is not empty. *)
Lemma unquote_truthy s : truthy (parse.unquote s) = truthy s.
Proof.
  unfold parse.unquote. destruct (negb _); [reflexivity|].
  rewrite unquote_runs_truthy. apply orb_false_r.
Qed.

Lemma replace_truthy c d s : truthy (replace c d s) = truthy s.
Proof. by destruct s. Qed.


Lemma unquote_nil : parse.unquote [] = [].
Proof. reflexivity. Qed.

Lemma filter_flat_map {A B} (p : B -> bool) (f g : A -> list B) l :
  (forall x, g x = List.filter p (f x)) ->
  flat_map g l = List.filter p (flat_map f l).
Proof.
  intros Hfg. induction l as [|x l IH]; [reflexivity|].
  cbn [flat_map]. by rewrite List.filter_app, <- IH, Hfg.
Qed.

(** Dropping blank values before decoding, as [parse_qsl] does by
    default, keeps the fields whose decoded value is not empty. *)
Lemma parse_qsl_drops_blank qs :
  parse.parse_qsl qs false
  = List.filter (fun '(_, value) => truthy value) (parse.parse_qsl qs true).
Proof.
  unfold parse.parse_qsl. apply filter_flat_map. intros name_value.
  destruct (truthy name_value); [|reflexivity]. cbn [negb].
  destruct (split1 (ch "=") name_value) as [|n [|v [|w rest]]]; try reflexivity.
  rewrite orb_true_r, orb_false_r. cbn [List.filter].
  rewrite unquote_truthy, replace_truthy.
  destruct (truthy v); reflexivity.
Qed.

Lemma filter_andb {A} (p q : A -> bool) l :
  List.filter (fun x => p x && q x) l = List.filter p (List.filter q l).
Proof.
  induction l as [|x l IH]; [reflexivity|]. cbn.
  destruct (q x); cbn; rewrite ?andb_false_r, ?andb_true_r.
  - destruct (p x); by rewrite IH.
  - exact IH.
Qed.

(** The non-empty values of [mediaurl] are the values [parse_qsl] pairs
    with that name. *)
Lemma mediaurl_values_parse_qsl qs :
  mediaurl_values qs = values_of (py "mediaurl") (parse.parse_qsl qs false).
Proof.
  unfold mediaurl_values, values_of, query_parameters.
  rewrite parse_qsl_drops_blank. f_equal.
  rewrite <- filter_andb. apply List.filter_ext. by intros [n v].
Qed.

(** The dictionary of [parse_qs] maps a name to its values in order, and
    holds no name without a value. *)
Lemma parse_qs_fold (name : str) (pairs : list (str * str))
    (parsed_result : gmap str (list str)) :
  fold_left
    (fun parsed_result '(name, value) =>
       match parsed_result !! name with
       | Some values => <[name := values ++ [value]]> parsed_result
       | None => <[name := [value]]> parsed_result
       end)
    pairs parsed_result !! name
  = match values_of name pairs with
    | [] => parsed_result !! name
    | v :: vs => Some (default [] (parsed_result !! name) ++ v :: vs)
    end.
Proof.
  revert parsed_result. induction pairs as [|[n v] pairs IH]; intros m;
    [reflexivity|].
  cbn [fold_left]. rewrite IH. unfold values_of. cbn [List.filter].
  unfold str_eqb at 2. destruct (bool_decide_reflect (n = name)) as [->|Hne].
  - cbn [List.map snd].
    fold (values_of name pairs).
    destruct (m !! name) as [old|] eqn:E; rewrite lookup_insert_eq.
    + destruct (values_of name pairs); [reflexivity|]. cbn. by rewrite <- app_assoc.
    + destruct (values_of name pairs); reflexivity.
  - fold (values_of name pairs).
    destruct (m !! n); by rewrite lookup_insert_ne.
Qed.

Lemma parse_qs_lookup (qs name : str) :
  parse.parse_qs qs !! name
  = match values_of name (parse.parse_qsl qs false) with
    | [] => None
    | v :: vs => Some (v :: vs)
    end.
Proof.
  unfold parse.parse_qs. rewrite parse_qs_fold, lookup_empty.
  by destruct (values_of name _).
Qed.

Lemma values_of_truthy (qs name v : str) :
  v ∈ values_of name (parse.parse_qsl qs false) -> truthy v = true.
Proof.
  rewrite parse_qsl_drops_blank. unfold values_of.
  intros H. apply list_elem_of_In, in_map_iff in H as [[n w] [<- H]].
  apply List.filter_In in H as [H _]. by apply List.filter_In in H as [_ H].
Qed.


(** A value is among [mediaurl_values] exactly when the query string
    holds a parameter [mediaurl] with that value, and it is not empty. *)
Lemma mediaurl_values_spec (qs v : str) :
  v ∈ mediaurl_values qs
  <-> (py "mediaurl", v) ∈ query_parameters qs /\ v <> [].
Proof.
  unfold mediaurl_values. rewrite !list_elem_of_In, in_map_iff. split.
  - intros [[n w] [<- H]]. apply List.filter_In in H as [Hin H].
    apply andb_true_iff in H as [Hn Hw]. cbn [snd].
    apply bool_decide_eq_true in Hn as ->. split; [exact Hin|].
    by apply truthy_nonempty.
  - intros [Hin Hv]. exists (py "mediaurl", v). split; [reflexivity|].
    apply List.filter_In. split; [exact Hin|].
    apply andb_true_iff. split; [by apply bool_decide_eq_true|].
    by apply truthy_nonempty.
Qed.

(** ** The URL resolver *)

(** [extract_media_url] returns the first non-empty value of [mediaurl],
    or its argument when there is none; it raises what [urlparse] raises. *)
Lemma extract_media_url_eq url :
  extract_media_url url =
    parsed ← urlparse url;
    Ok (match mediaurl_values (parse.query parsed) with
        | v :: _ => v
        | [] => url
        end).
Proof.
  unfold extract_media_url. destruct (urlparse url) as [parsed|e]; [|reflexivity].
  cbn [mbind result_bind rbind].
  rewrite parse_qs_lookup, mediaurl_values_parse_qsl.
  destruct (values_of (py "mediaurl") (parse.parse_qsl (parse.query parsed) false))
    as [|v vs] eqn:E; [reflexivity|].
  cbn [List.map getitem0 mbind result_bind rbind].
  rewrite (values_of_truthy (parse.query parsed) (py "mediaurl") v); [reflexivity|].
  rewrite E. apply list_elem_of_here.
Qed.

(** On the URLs that [urlparse] accepts the resolver is the one of the
    specification: if the query string holds a [mediaurl] parameter with a
    non-empty value then [extract_media_url] returns the first such value,
    and otherwise (the parameter is absent or each of its values is empty)
    it returns the input unchanged. *)
Lemma extract_media_url_spec url parsed :
  urlparse url = Ok parsed ->
  (forall v rest,
      mediaurl_values (parse.query parsed) = v :: rest ->
      extract_media_url url = Ok v
      /\ (py "mediaurl", v) ∈ query_parameters (parse.query parsed) /\ v <> [])
  /\ ((forall v, (py "mediaurl", v) ∈ query_parameters (parse.query parsed) -> v = []) ->
      extract_media_url url = Ok url).
Proof.
  intros Hparse. rewrite extract_media_url_eq, Hparse. cbn [mbind result_bind rbind].
  split.
  - intros v rest E. rewrite E. split; [reflexivity|].
    apply mediaurl_values_spec. rewrite E. apply list_elem_of_here.
  - intros Hnone.
    destruct (mediaurl_values (parse.query parsed)) as [|v rest] eqn:E; [reflexivity|].
    assert (Hv : v ∈ mediaurl_values (parse.query parsed))
      by (rewrite E; apply list_elem_of_here).
    apply mediaurl_values_spec in Hv as [Hin Hv]. by apply Hnone in Hin.
Qed.

(** On the URLs that [urlparse] accepts, a [mediaurl] parameter that
    occurs more than once with non-empty values gives the first of them;
    the later ones are ignored. *)
Lemma extract_media_url_first_of_many url parsed v1 v2 rest :
  urlparse url = Ok parsed ->
  mediaurl_values (parse.query parsed) = v1 :: v2 :: rest ->
  extract_media_url url = Ok v1.
Proof.
  intros Hparse E. by rewrite extract_media_url_eq, Hparse; cbn; rewrite E.
Qed.

(** C3, the code at [http://[]: the URL holds no query string and so no
    [mediaurl] parameter, and the claim, like the docstring of the method
    ([otherwise returns the input URL]), has it returned unchanged.  The
    code hands it to [urlparse] with no handler around the call, and
    [urlparse] rejects a host that opens a bracket and never closes it:
    [extract_media_url] raises [ValueError], whatever the tables. *)
Theorem extract_media_url_open_bracket :
  contains (ch "?") (py "http://[") = false
  /\ extract_media_url (py "http://[") = Raise (Exc ValueError (py "Invalid IPv6 URL"))
  /\ extract_media_url (py "http://[") <> Ok (py "http://[").
Proof. split; [reflexivity|]. split; [reflexivity|discriminate]. Qed.

(** C8, the code at
    [http://[?mediaurl=http://a/1.bin&mediaurl=http://b/2.bin]: the query
    string holds the [mediaurl] parameter twice with non-empty values, and
    the claim has the first, [http://a/1.bin], returned.  The code raises
    the [ValueError] of [urlparse] before it looks at the query string,
    whatever the tables. *)
Theorem extract_media_url_many_open_bracket :
  mediaurl_values (py "mediaurl=http://a/1.bin&mediaurl=http://b/2.bin")
  = [py "http://a/1.bin"; py "http://b/2.bin"]
  /\ extract_media_url
       (py "http://[?mediaurl=http://a/1.bin&mediaurl=http://b/2.bin")
     = Raise (Exc ValueError (py "Invalid IPv6 URL"))
  /\ extract_media_url
       (py "http://[?mediaurl=http://a/1.bin&mediaurl=http://b/2.bin")
     <> Ok (py "http://a/1.bin").
Proof.
  split; [vm_compute; reflexivity|].
  assert (E : extract_media_url
                (py "http://[?mediaurl=http://a/1.bin&mediaurl=http://b/2.bin")
              = Raise (Exc ValueError (py "Invalid IPv6 URL")))
    by (vm_compute; reflexivity).
  split; [exact E|]. rewrite E. discriminate.
Qed.


(** ** Paths *)

Lemma rfind_split c s :
  0 <= rfind c s ->
  exists pre post, s = pre ++ c :: post /\ rfind c s = len pre.
Proof.
  induction s as [|x s IH]; cbn [rfind]; [lia|].
  destruct (Z.leb_spec 0 (rfind c s)) as [Hi|Hi].
  - intros _. destruct (IH Hi) as (pre & post & -> & E).
    exists (x :: pre), post. split; [reflexivity|].
    rewrite E. unfold len. cbn [length]. lia.
  - destruct (N.eqb_spec x c) as [->|_]; [|lia].
    intros _. by exists [], s.
Qed.

Lemma slice_from_len (pre post : str) : slice_from (len pre) (pre ++ post) = post.
Proof.
  unfold slice_from, slice_index, len.
  destruct (Z.ltb_spec (Z.of_nat (length pre)) 0) as [H|_]; [lia|].
  by rewrite Nat2Z.id, drop_app_length.
Qed.

Lemma contains_app c (s t : str) : contains c (s ++ t) = contains c s || contains c t.
Proof. apply existsb_app. Qed.

(** A suffix is empty, or a dot followed by at least one character, and
    it is the end of the name. *)
Lemma suffix_shape p :
  pathlib.suffix p = []
  \/ exists pre x rest,
       pathlib.suffix p = ch "." :: x :: rest
       /\ pathlib.name p = pre ++ ch "." :: x :: rest.
Proof.
  unfold pathlib.suffix. cbv zeta.
  destruct (Z.ltb_spec 0 (rfind (ch ".") (pathlib.name p))) as [Hi|_];
    [|by left].
  destruct (rfind_split (ch ".") (pathlib.name p) ltac:(lia))
    as (pre & post & E & Hlen).
  rewrite Hlen, E in *. cbn [andb].
  destruct (Z.ltb_spec (len pre) (len (pre ++ ch "." :: post) - 1)) as [Hlt|_];
    [|by left].
  right. rewrite slice_from_len.
  destruct post as [|x rest].
  - unfold len in Hlt. rewrite length_app in Hlt. cbn [length] in Hlt. lia.
  - by exists pre, x, rest.
Qed.

Lemma split_nonempty c s : split c s <> [].
Proof.
  destruct s as [|x s]; [done|]. cbn [split].
  destruct (split c s); [done|]. by destruct (N.eqb x c).
Qed.

Lemma split_no_sep c s : Forall (fun x => contains c x = false) (split c s).
Proof.
  induction s as [|x s IH]; [by repeat constructor|]. cbn [split].
  pose proof (split_nonempty c s) as Hne.
  destruct (split c s) as [|h t]; [done|].
  apply Forall_cons in IH as [Hh Ht].
  destruct (N.eqb_spec x c) as [->|Hne'].
  - by repeat constructor.
  - constructor; [|exact Ht]. cbn [contains existsb].
    destruct (N.eqb_spec c x) as [->|_]; [done|exact Hh].
Qed.

(** The parts of [Path(text)]: an anchor when the text starts with a
    slash, then components that are not empty and hold no slash. *)
Lemma Path_parts text :
  exists comps : list str,
    Forall (fun x : str => x <> [] /\ contains pathlib.sep x = false) comps
    /\ pathlib._drv (pathlib.Path text) = []
    /\ ((pathlib._root (pathlib.Path text) = []
         /\ pathlib._parts (pathlib.Path text) = comps)
        \/ (pathlib._root (pathlib.Path text) <> []
            /\ pathlib._parts (pathlib.Path text)
               = pathlib._root (pathlib.Path text) :: comps)).
Proof.
  unfold pathlib.Path. destruct (truthy text) eqn:Ht; cbn [negb].
  - set (keep := fun x : str => truthy x && negb (str_eqb x (py "."))).
    assert (Hcomps : forall rel,
               Forall (fun x : str => x <> [] /\ contains pathlib.sep x = false)
                 (List.filter keep (split pathlib.sep rel))).
    { intros rel. apply List.Forall_forall. intros x Hx.
      apply List.filter_In in Hx as [Hin Hk].
      apply andb_true_iff in Hk as [Hk _]. split; [by apply truthy_nonempty|].
      pose proof (split_no_sep pathlib.sep rel) as Hall.
      rewrite List.Forall_forall in Hall. by apply Hall. }
    unfold pathlib.splitroot. destruct (startswith pathlib.sep text).
    + destruct (_ =? 2); eexists; (split; [apply Hcomps|]); cbn;
        (split; [reflexivity|]); right; split; done.
    + eexists. split; [apply Hcomps|]. cbn. split; [reflexivity|]. by left.
  - exists []. cbn. split; [constructor|]. split; [reflexivity|]. by left.
Qed.

(** Paths as [Path] builds them: [comps] are the components after the
    anchor. *)
Lemma name_of_parts p (comps : list str) :
  pathlib._drv p = [] ->
  (pathlib._root p = [] /\ pathlib._parts p = comps)
  \/ (pathlib._root p <> [] /\ pathlib._parts p = pathlib._root p :: comps) ->
  pathlib.name p = List.last comps [].
Proof.
  intros Hdrv Hparts. unfold pathlib.name. cbv zeta. rewrite Hdrv. cbn [truthy orb].
  destruct Hparts as [[Hroot ->]|[Hroot ->]].
  - rewrite Hroot. cbn [truthy]. destruct comps as [|c comps]; [reflexivity|].
    destruct (Z.eqb_spec (len (c :: comps)) 0) as [E|_]; [|reflexivity].
    unfold len in E. cbn [length] in E. lia.
  - destruct (pathlib._root p) as [|r root] eqn:E; [done|]. cbn [truthy].
    destruct comps as [|c comps]; [reflexivity|].
    destruct (_ =? 1) eqn:E'; [|reflexivity].
    apply Z.eqb_eq in E'. unfold len in E'. cbn [length] in E'. lia.
Qed.

Lemma join_truthy sep (comps : list str) :
  List.last comps [] <> [] -> truthy (join sep comps) = true.
Proof.
  induction comps as [|c [|c' comps] IH]; intros Hlast; [done| |].
  - by destruct c.
  - cbn [join]. apply truthy_app_cons.
Qed.

Lemma join_removelast sep (comps : list str) x :
  comps <> [] ->
  join sep (List.removelast comps ++ [List.last comps [] ++ x])
  = join sep comps ++ x.
Proof.
  induction comps as [|c [|c' comps] IH]; intros Hne; [done|reflexivity|].
  change (List.removelast (c :: c' :: comps)) with (c :: List.removelast (c' :: comps)).
  change (List.last (c :: c' :: comps) []) with (List.last (c' :: comps) []).
  cbn [app]. 
  assert (Hj : forall l, l <> [] -> join sep (c :: l) = c ++ sep :: join sep l).
  { intros [|y l] Hl; [done|reflexivity]. }
  rewrite !Hj; [|done|by destruct (List.removelast (c' :: comps))].
  rewrite IH by done. by rewrite <- app_assoc.
Qed.

Lemma str_of_parts p (comps : list str) :
  pathlib._drv p = [] ->
  (pathlib._root p = [] /\ pathlib._parts p = comps)
  \/ (pathlib._root p <> [] /\ pathlib._parts p = pathlib._root p :: comps) ->
  List.last comps [] <> [] ->
  pathlib.__str__ p = pathlib._root p ++ join pathlib.sep comps.
Proof.
  intros Hdrv Hparts Hlast. unfold pathlib.__str__. cbv zeta.
  rewrite Hdrv. cbn [truthy orb app].
  pose proof (join_truthy pathlib.sep comps Hlast) as Hj.
  destruct Hparts as [[Hroot ->]|[Hroot ->]].
  - rewrite Hroot. cbn [truthy app]. by rewrite Hj.
  - destruct (pathlib._root p) as [|r root] eqn:E; [done|].
    cbn [truthy List.tl]. reflexivity.
Qed.

(** On a path with a name and no suffix, [with_suffix] appends a
    well-formed suffix to the text of the path. *)
Lemma with_suffix_appends text ext :
  pathlib.name (pathlib.Path text) <> [] ->
  pathlib.suffix (pathlib.Path text) = [] ->
  contains pathlib.sep ext = false ->
  (ext = [] \/ exists x rest, ext = ch "." :: x :: rest) ->
  exists final,
    pathlib.with_suffix repr (pathlib.Path text) ext = Ok final
    /\ pathlib.__str__ final = pathlib.__str__ (pathlib.Path text) ++ ext
    /\ (ext = [] -> final = pathlib.Path text).
Proof.
  intros Hname Hsuffix Hsep Hext.
  destruct (Path_parts text) as (comps & Hall & Hdrv & Hparts).
  set (p := pathlib.Path text) in *.
  pose proof (name_of_parts p comps Hdrv Hparts) as Hn.
  assert (Hcomps : comps <> []) by (intros ->; by rewrite Hn in Hname).
  unfold pathlib.with_suffix. rewrite Hsep, Hsuffix. cbv zeta.
  replace ((truthy ext && negb (startswith (ch ".") ext)) || str_eqb ext (py "."))
    with false by (by destruct Hext as [->|(x & rest & ->)]).
  destruct (truthy (pathlib.name p)) eqn:Ht;
    [|by apply truthy_nonempty in Hname; rewrite Hname in Ht].
  cbn [negb truthy]. eexists. split; [reflexivity|]. split.
  - rewrite (str_of_parts p comps Hdrv Hparts) by (by rewrite <- Hn).
    rewrite (str_of_parts _ (List.removelast comps ++ [List.last comps [] ++ ext])).
    + cbn [pathlib._root]. by rewrite join_removelast, app_assoc.
    + exact Hdrv.
    + cbn [pathlib._root pathlib._parts]. rewrite Hn.
      destruct Hparts as [[Hroot ->]|[Hroot ->]]; [by left|right].
      split; [exact Hroot|].
      destruct comps as [|c comps]; [done|reflexivity].
    + rewrite List.last_last. rewrite <- Hn. by destruct (pathlib.name p).
  - intros ->. rewrite app_nil_r.
    assert (Hp : pathlib._parts p <> []).
    { destruct Hparts as [[_ ->]|[_ ->]]; done. }
    assert (Hlast : pathlib.name p = List.last (pathlib._parts p) []).
    { rewrite Hn. destruct Hparts as [[_ ->]|[_ ->]]; [reflexivity|].
      destruct comps; [done|reflexivity]. }
    rewrite Hlast, <- List.app_removelast_last by exact Hp.
    by destruct p.
Qed.


(** The suffix of a path built by [Path] is one [with_suffix] accepts. *)
Lemma suffix_valid text :
  contains pathlib.sep (pathlib.suffix (pathlib.Path text)) = false
  /\ (pathlib.suffix (pathlib.Path text) = []
      \/ exists x rest, pathlib.suffix (pathlib.Path text) = ch "." :: x :: rest).
Proof.
  destruct (Path_parts text) as (comps & Hall & Hdrv & Hparts).
  pose proof (name_of_parts _ comps Hdrv Hparts) as Hn.
  assert (Hsep : contains pathlib.sep (pathlib.name (pathlib.Path text)) = false).
  { rewrite Hn. clear Hn Hparts. induction Hall as [|c comps [_ Hc] _ IH]; [done|].
    destruct comps; [exact Hc|exact IH]. }
  destruct (suffix_shape (pathlib.Path text)) as [->|(pre & x & rest & -> & E)].
  - split; [done|by left].
  - rewrite E, contains_app in Hsep. apply orb_false_iff in Hsep as [_ Hsep].
    split; [exact Hsep|]. right. by exists x, rest.
Qed.

Lemma has_extension_suffix p : has_extension p = true <-> pathlib.suffix p <> [].
Proof.
  unfold has_extension, str_eqb. rewrite negb_true_iff, bool_decide_eq_false.
  reflexivity.
Qed.

(** ** The destination path *)

(** C4, amended: a destination path that has a non-empty suffix is
    returned unchanged; one that has no suffix but a non-empty name gets
    exactly the suffix of the path component of the effective URL
    appended (nothing when that is empty: the path is then unchanged),
    provided the effective URL parses. *)
Theorem normalize_spec text url :
  (pathlib.suffix (pathlib.Path text) <> [] ->
   normalize (pathlib.Path text) url = Ok (pathlib.Path text))
  /\ (pathlib.suffix (pathlib.Path text) = [] ->
      pathlib.name (pathlib.Path text) <> [] ->
      forall parsed,
        urlparse url = Ok parsed ->
        exists final,
          normalize (pathlib.Path text) url = Ok final
          /\ pathlib.__str__ final
             = pathlib.__str__ (pathlib.Path text)
               ++ pathlib.suffix (pathlib.Path (parse.path parsed))
          /\ (pathlib.suffix (pathlib.Path (parse.path parsed)) = [] ->
              final = pathlib.Path text)).
Proof.
  unfold normalize. split.
  - intros Hs. apply has_extension_suffix in Hs. by rewrite Hs.
  - intros Hs Hname parsed Hparse.
    destruct (has_extension (pathlib.Path text)) eqn:He.
    + apply has_extension_suffix in He. contradiction.
    + cbn [negb]. rewrite Hparse. cbn [mbind result_bind rbind].
      destruct (suffix_valid (parse.path parsed)) as [Hsep Hshape].
      by apply with_suffix_appends.
Qed.

(** A path without a name has no suffix, and [with_suffix] refuses it. *)
Lemma normalize_empty_name location url :
  pathlib.name location = [] -> exists e, normalize location url = Raise e.
Proof.
  intros Hname. unfold normalize, has_extension, pathlib.suffix.
  rewrite Hname. cbn [rfind Z.ltb andb str_eqb negb]. cbn.
  destruct (urlparse url) as [parsed|e]; cbn [mbind result_bind rbind]; [|by eexists].
  unfold pathlib.with_suffix. rewrite Hname. cbn [truthy negb].
  destruct (contains _ _); [by eexists|].
  destruct (_ || _); by eexists.
Qed.


(** ** The download operation *)

(** The window after a run of notifications shows some values more;
    nothing else of it changes. *)
Lemma report_shown blocks self :
  exists values,
    (report handle_progress blocks self).1 = shown values self.
Proof.
  revert self. induction blocks as [|[[bn bs] ts] blocks IH]; intros self.
  - exists []. by rewrite shown_nil.
  - cbn [report]. unfold mbind at 1. unfold GUI_bind.
    rewrite handle_progress_eq. cbv zeta.
    destruct (0 <? ts).
    + destruct (int_truediv _ _) as [p|e].
      * destruct (IH (shown ((if 100 <? p then 100 else p)
                               :: (if ts <=? bn * bs then [100] else [])) self))
          as [values E].
        eexists. rewrite E. apply shown_app.
      * exists []. by rewrite shown_nil.
    + destruct (IH (shown (if ts <=? bn * bs then [100] else []) self))
        as [values E].
      eexists. rewrite E. apply shown_app.
Qed.

(** The window when [urlretrieve] ends: the fields cleared, the call
    recorded, then the values the notifications showed. *)
Lemma fetch_shown self url location :
  exists values,
    (fetch self url location).1
    = shown values (record (urlretrieve_start url location) (cleared self)).
Proof.
  unfold fetch, urlretrieve.
  unfold mbind at 1. unfold GUI_bind. unfold emit at 1.
  unfold mbind at 1. unfold GUI_bind.
  destruct (report_shown (notifications (network url location))
              (record (urlretrieve_start url location) (cleared self)))
    as [values E].
  exists values.
  destruct (report handle_progress _ _) as [s1 [[]|e]]; cbn [fst] in *;
    [|exact E].
  destruct (outcome (network url location)); exact E.
Qed.

(** [download] is its preparation, which may raise, followed by the
    transfer and one message box. *)
Lemma download_eq self :
  download self =
    match prepare self with
    | Raise e => (self, Raise e)
    | Ok (url, location) =>
        match (fetch self url location).2 with
        | Ok _ =>
            (emit (QMessageBox_information (py "Download Completed")
                     (py "The Download Completed Successfully"));;
             setValue 0) (fetch self url location).1
        | Raise e =>
            emit (QMessageBox_warning (py "Download Error")
                    ((if is_URLError e
                      then py "Failed to download the file. Error: "
                      else py "An error occurred: ") ++ exc_str e))
              (fetch self url location).1
        end
    end.
Proof.
  unfold download, prepare, normalize, fetch, cleared, try_except.
  unfold mbind, GUI_bind, result_bind, mret, GUI_ret, call,
    url_line_edit_text, location_line_edit_text, setText_url, setText_location.
  cbn [fst snd].
  destruct (extract_media_url (url_line_edit self)) as [url|e]; [|reflexivity].
  cbn [rbind]. cbv zeta.
  destruct (negb (has_extension (pathlib.Path (location_line_edit self)))).
  - destruct (urlparse url) as [parsed|e]; [|reflexivity]. cbn [rbind].
    destruct (pathlib.with_suffix repr _ _) as [final|e]; [|reflexivity].
    cbn [rbind].
    destruct (urlretrieve url final handle_progress _) as [s1 [[]|e]];
      cbn [fst snd handle]; [reflexivity|].
    destruct (is_URLError e); reflexivity.
  - cbn [rbind].
    destruct (urlretrieve url _ handle_progress _) as [s1 [[]|e]];
      cbn [fst snd handle]; [reflexivity|].
    destruct (is_URLError e); reflexivity.
Qed.


(** The whole run of a [download] that reaches the transfer: the calls
    it makes, in order, and the window it leaves. *)
Lemma download_run self url location :
  prepare self = Ok (url, location) ->
  exists values,
    (fetch self url location).1
    = shown values (record (urlretrieve_start url location) (cleared self))
    /\ download self =
       ({| url_line_edit := [];
           location_line_edit := [];
           progress_bar :=
             match (fetch self url location).2 with
             | Ok _ => 0
             | Raise _ => List.last values (progress_bar self)
             end;
           calls :=
             calls self
             ++ [url_line_edit_setText []; location_line_edit_setText [];
                 urlretrieve_start url location]
             ++ flat_map (fun v => [progress_bar_setValue v; processEvents]) values
             ++ match (fetch self url location).2 with
                | Ok _ =>
                    [QMessageBox_information (py "Download Completed")
                       (py "The Download Completed Successfully");
                     progress_bar_setValue 0]
                | Raise e =>
                    [QMessageBox_warning (py "Download Error")
                       ((if is_URLError e
                         then py "Failed to download the file. Error: "
                         else py "An error occurred: ") ++ exc_str e)]
                end |}, Ok tt).
Proof.
  intros Hprep. destruct (fetch_shown self url location) as [values E].
  exists values. split; [exact E|].
  rewrite download_eq, Hprep, E.
  destruct (fetch self url location).2 as [[]|e];
    cbv [shown record cleared setText_url setText_location emit setValue
         mbind GUI_bind fst snd
         url_line_edit location_line_edit progress_bar calls];
    repeat rewrite <- app_assoc; reflexivity.
Qed.

Lemma emitted_app self self' evs :
  calls self' = calls self ++ evs -> emitted self self' = evs.
Proof. intros E. unfold emitted. by rewrite E, drop_app_length. Qed.

Lemma filter_shown_events (keep : event -> bool) values :
  keep processEvents = false ->
  (forall v, keep (progress_bar_setValue v) = false) ->
  List.filter keep
    (flat_map (fun v => [progress_bar_setValue v; processEvents]) values) = [].
Proof.
  intros Hp Hs. induction values as [|v values IH]; [reflexivity|].
  cbn [flat_map app List.filter]. by rewrite Hs, Hp.
Qed.

(** C5, amended: a download that reaches the transfer calls
    [urlretrieve] once and returns to its caller without raising, whatever
    the outcome of the transfer; it shows exactly one message box, chosen
    by the class of the exception that left [urlretrieve]: the
    information box when nothing was raised; the warning
    [Failed to download the file. Error: ] with [str(e)] for a
    [URLError], an [HTTPError] or a [ContentTooShortError]; the warning
    [An error occurred: ] with [str(e)] for an exception of any other
    class, an [OSError] of the connection that [urllib] did not wrap
    among them. *)
Theorem download_classifies self url location :
  prepare self = Ok (url, location) ->
  exists self',
    download self = (self', Ok tt)
    /\ List.filter is_fetch (emitted self self') = [urlretrieve_start url location]
    /\ List.filter is_dialog (emitted self self')
       = [match (fetch self url location).2 with
          | Ok _ =>
              QMessageBox_information (py "Download Completed")
                (py "The Download Completed Successfully")
          | Raise e =>
              match exc_type e with
              | URLError | HTTPError | ContentTooShortError =>
                  QMessageBox_warning (py "Download Error")
                    (py "Failed to download the file. Error: " ++ exc_str e)
              | ValueError | ZeroDivisionError | OverflowError | IndexError
              | OSError | OtherException =>
                  QMessageBox_warning (py "Download Error")
                    (py "An error occurred: " ++ exc_str e)
              end
          end].
Proof.
  intros Hprep. destruct (download_run self url location Hprep) as (values & _ & E).
  eexists. split; [exact E|].
  erewrite emitted_app by reflexivity.
  rewrite !List.filter_app, !filter_shown_events by done.
  destruct (fetch self url location).2 as [[]|[class text]]; split;
    try reflexivity.
  destruct class; reflexivity.
Qed.

(** C6: a download that reaches the transfer leaves the progress
    indicator at [0] when the transfer succeeds, and when the transfer
    fails, with either kind of error, at the value it had when the
    transfer ended: the last value shown during the transfer, or the value
    before the download when none was shown. *)
Theorem download_progress_after self url location :
  prepare self = Ok (url, location) ->
  exists self',
    download self = (self', Ok tt)
    /\ match (fetch self url location).2 with
       | Ok _ => progress_bar self' = 0
       | Raise _ =>
           progress_bar self' = progress_bar (fetch self url location).1
           /\ progress_bar self'
              = List.last (set_values (emitted self (fetch self url location).1))
                  (progress_bar self)
       end.
Proof.
  intros Hprep. destruct (download_run self url location Hprep) as (values & Ef & E).
  eexists. split; [exact E|]. cbn [progress_bar].
  destruct (fetch self url location).2 as [[]|e]; [reflexivity|].
  rewrite Ef. split; [reflexivity|].
  erewrite emitted_app.
  2:{ cbv [shown record cleared setText_url setText_location fst calls].
      repeat rewrite <- app_assoc. reflexivity. }
  cbn [app set_values flat_map].
  change (flat_map _ (flat_map _ values))
    with (set_values (flat_map (fun v => [progress_bar_setValue v; processEvents]) values)).
  rewrite <- (emitted_shown values self), set_values_shown. reflexivity.
Qed.

(** C9: a download that reaches the transfer clears both input fields
    before it calls [urlretrieve], and they are empty when it returns,
    whether the transfer succeeded or failed. *)
Theorem download_clears_fields self url location :
  prepare self = Ok (url, location) ->
  exists self' later,
    download self = (self', Ok tt)
    /\ emitted self self'
       = url_line_edit_setText [] :: location_line_edit_setText []
         :: urlretrieve_start url location :: later
    /\ url_line_edit self' = []
    /\ location_line_edit self' = [].
Proof.
  intros Hprep. destruct (download_run self url location Hprep) as (values & _ & E).
  eexists. eexists. split; [exact E|].
  erewrite emitted_app by reflexivity. split; [reflexivity|]. split; reflexivity.
Qed.

(** C10: resolution and normalisation run before the [try]: when the
    destination has no name (an empty destination, for one) the download
    raises out of [download] itself, no handler sees the error, no
    message box is shown and the window, its two input fields included,
    is left as it was. *)
Theorem download_raises_before_handlers self :
  pathlib.name (pathlib.Path (location_line_edit self)) = [] ->
  exists e, download self = (self, Raise e).
Proof.
  intros Hname. rewrite download_eq. unfold prepare.
  destruct (extract_media_url (url_line_edit self)) as [url|e];
    cbn [mbind result_bind rbind]; [|by eexists].
  destruct (normalize_empty_name _ url Hname) as [e ->]. by eexists.
Qed.

(** What is raised while the download is prepared leaves [download]. *)
Lemma download_prepare_raises self e :
  prepare self = Raise e -> download self = (self, Raise e).
Proof. intros H. by rewrite download_eq, H. Qed.


(** * Further properties *)

(** ** The progress callback *)

Lemma round_at_nonneg n d :
  0 <= n -> 0 < d -> 0 <= Float64.round_at (Float64.ulp_shift n d) n d.
Proof.
  intros Hn Hd. unfold Float64.round_at.
  assert (HS : 0 < 2 ^ Float64.ulp_shift n d)
    by (apply Z.pow_pos_nonneg; [lia|apply ulp_shift_nonneg]).
  assert (H0 : 0 <= Float64.scaled n).
  { rewrite scaled_eq. assert (0 < 2 ^ 1074) by (apply Z.pow_pos_nonneg; lia). nia. }
  assert (HD : 0 < d * 2 ^ Float64.ulp_shift n d) by nia.
  pose proof (round_half_even_floor _ _ H0 HD) as Hlo.
  pose proof (Z.div_pos _ _ H0 HD). lia.
Qed.

(** [int(a / b)] raises exactly when the quotient reaches the overflow
    threshold, and then it raises [OverflowError]. *)
Lemma int_truediv_raises a b :
  0 < b ->
  match int_truediv a b with
  | Ok _ => Z.abs a < overflow_threshold * b
  | Raise e =>
      overflow_threshold * b <= Z.abs a
      /\ e = Exc OverflowError (py "integer division result too large for a float")
  end.
Proof.
  intros Hb. unfold int_truediv, Float64.truediv.
  destruct (Z.eqb_spec b 0) as [E|_]; [lia|]. cbv zeta.
  rewrite (Z.abs_eq b) by lia.
  change overflow_threshold with ((2 ^ 54 - 1) * 2 ^ 970).
  destruct (Z.lt_ge_cases (Z.abs a) ((2 ^ 54 - 1) * 2 ^ 970 * b)) as [Hlt|Hge].
  - rewrite round_at_finite by lia. exact Hlt.
  - rewrite round_at_too_large by lia. cbn [rbind]. split; [lia|reflexivity].
Qed.

(** A quotient of a numerator that is not negative by a positive divisor
    is not negative after rounding and truncation. *)
Lemma int_truediv_nonneg a b p :
  0 <= a -> 0 < b -> int_truediv a b = Ok p -> 0 <= p.
Proof.
  intros Ha Hb. unfold int_truediv, Float64.truediv.
  destruct (Z.eqb_spec b 0) as [E|_]; [lia|]. cbv zeta.
  destruct (Float64.too_large _ _); [discriminate|]. cbn [rbind].
  intros [= <-]. unfold Float64.to_int.
  cbn [Float64.negative Float64.mant Float64.expo].
  rewrite (Z.sgn_pos b) by lia.
  replace (Z.sgn a * 1 >=? 0) with true
    by (symmetry; apply Z.geb_le; pose proof (Z.sgn_nonneg a); lia).
  cbn [negb]. rewrite !Z.abs_eq by lia.
  apply Z.div_pos; [|apply Z.pow_pos_nonneg; unfold Float64.emin; lia].
  apply Z.mul_nonneg_nonneg; [by apply round_at_nonneg|].
  apply Z.pow_nonneg. lia.
Qed.

(** While the division is exact the callback shows the clamped floor of
    the percentage, and [100] once more when the bytes read reach the
    total. *)
Lemma handle_progress_in_range block_number block_size total_size self :
  0 < total_size ->
  0 <= block_number * block_size ->
  block_number * block_size * 100 < 2 ^ 53 ->
  handle_progress block_number block_size total_size self
  = (shown (percent_of (block_number * block_size) total_size
            :: (if total_size <=? block_number * block_size then [100] else []))
       self, Ok tt).
Proof.
  intros Ht Hread Hsmall. rewrite handle_progress_eq. cbv zeta.
  destruct (Z.ltb_spec 0 total_size) as [_|H]; [|lia].
  rewrite int_truediv_floor by lia. unfold percent_of.
  by destruct (Z.ltb_spec 100 (block_number * block_size * 100 / total_size));
    [rewrite Z.min_l by lia|rewrite Z.min_r by lia].
Qed.

Lemma percent_of_full read total_size :
  0 < total_size -> total_size <= read -> percent_of read total_size = 100.
Proof.
  intros Ht Hfull. unfold percent_of.
  assert (100 <= read * 100 / total_size); [|lia].
  apply Z.div_le_lower_bound; lia.
Qed.

Lemma percent_of_partial read total_size :
  0 < total_size -> 0 <= read < total_size -> 0 <= percent_of read total_size < 100.
Proof.
  intros Ht Hpart. unfold percent_of.
  assert (0 <= read * 100 / total_size < 100); [|lia]. split.
  - apply Z.div_pos; lia.
  - apply Z.div_lt_upper_bound; lia.
Qed.

Lemma percent_of_mono read read' total_size :
  0 < total_size -> read <= read' ->
  percent_of read total_size <= percent_of read' total_size.
Proof.
  intros Ht Hle. unfold percent_of.
  assert (read * 100 / total_size <= read' * 100 / total_size); [|lia].
  apply Z.div_le_mono; lia.
Qed.

(** X1.  For a known total and bytes read that are not negative, every
    value the callback hands to the progress bar lies between [0] and
    [100], whatever the size of the numbers. *)
Theorem handle_progress_values_in_range block_number block_size total_size self :
  0 < total_size ->
  0 <= block_number * block_size ->
  Forall (fun v => 0 <= v <= 100)
    (set_values
       (emitted self (handle_progress block_number block_size total_size self).1)).
Proof.
  intros Ht Hread. rewrite handle_progress_eq. cbv zeta.
  destruct (Z.ltb_spec 0 total_size) as [_|H]; [|lia].
  destruct (int_truediv _ _) as [p|e] eqn:E; cbn [fst].
  - rewrite set_values_shown.
    apply int_truediv_nonneg in E; [|lia|lia].
    constructor.
    + destruct (Z.ltb_spec 100 p); lia.
    + destruct (total_size <=? _); repeat (constructor; try lia).
  - unfold emitted. rewrite drop_all. constructor.
Qed.

(** X2.  While the division is exact, the progress bar reads [100] after
    a notification exactly when the bytes read have reached the total: an
    unfinished transfer never shows as complete. *)
Theorem handle_progress_complete_iff block_number block_size total_size self :
  0 < total_size ->
  0 <= block_number * block_size ->
  block_number * block_size * 100 < 2 ^ 53 ->
  exists self',
    handle_progress block_number block_size total_size self = (self', Ok tt)
    /\ (progress_bar self' = 100 <-> total_size <= block_number * block_size).
Proof.
  intros Ht Hread Hsmall. rewrite handle_progress_in_range by assumption.
  eexists. split; [reflexivity|]. unfold shown. cbn [progress_bar].
  destruct (Z.leb_spec total_size (block_number * block_size)) as [Hfull|Hpart].
  - cbn. split; [done|reflexivity].
  - cbn. pose proof (percent_of_partial (block_number * block_size) total_size Ht
                       ltac:(lia)). lia.
Qed.

(** X3.  For a known total and bytes read that are not negative (the
    values handed to the progress bar then lie between [0] and [100]),
    the callback raises exactly when the quotient
    [read * 100 / total_size] reaches the overflow threshold of a double;
    what it then raises is [OverflowError], and the window is left as it
    was. *)
Theorem handle_progress_raises_iff block_number block_size total_size self :
  0 < total_size ->
  0 <= block_number * block_size ->
  match (handle_progress block_number block_size total_size self).2 with
  | Ok _ =>
      block_number * block_size * 100 < overflow_threshold * total_size
      /\ Forall (fun v => 0 <= v <= 100)
           (set_values
              (emitted self
                 (handle_progress block_number block_size total_size self).1))
  | Raise e =>
      overflow_threshold * total_size <= block_number * block_size * 100
      /\ e = Exc OverflowError (py "integer division result too large for a float")
      /\ (handle_progress block_number block_size total_size self).1 = self
  end.
Proof.
  intros Ht Hread. rewrite handle_progress_eq. cbv zeta.
  destruct (Z.ltb_spec 0 total_size) as [_|H]; [|lia].
  pose proof (int_truediv_raises (block_number * block_size * 100) total_size Ht) as H.
  rewrite Z.abs_eq in H by lia.
  destruct (int_truediv _ _) as [p|e] eqn:Hdiv; cbn [fst snd].
  - split; [exact H|]. rewrite set_values_shown.
    assert (Hnum : 0 <= block_number * block_size * 100) by lia.
    pose proof (int_truediv_nonneg _ _ _ Hnum Ht Hdiv) as Hp.
    constructor.
    + destruct (Z.ltb_spec 100 p); lia.
    + destruct (total_size <=? _); repeat constructor; lia.
  - destruct H as [H ->]. by repeat split.
Qed.


(** What the callback shows for block [k] of a transfer. *)
Lemma report_blocks (ks : list nat) block_size total_size self :
  0 <= block_size -> 0 < total_size ->
  Forall (fun k => Z.of_nat k * block_size * 100 < 2 ^ 53) ks ->
  report handle_progress
    (List.map (fun k => (Z.of_nat k, block_size, total_size)) ks) self
  = (shown
       (flat_map
          (fun k => percent_of (Z.of_nat k * block_size) total_size
                    :: (if total_size <=? Z.of_nat k * block_size then [100] else []))
          ks) self, Ok tt).
Proof.
  intros Hbs Ht Hall. revert self.
  induction Hall as [|k ks Hk _ IH]; intros self.
  - cbn. by rewrite shown_nil.
  - cbn [List.map report flat_map]. unfold mbind at 1. unfold GUI_bind.
    rewrite handle_progress_in_range by nia.
    rewrite IH. by rewrite shown_app.
Qed.

Lemma shown_values_at_least block_size total_size (a b len : nat) :
  0 <= block_size -> 0 < total_size -> (a <= b)%nat ->
  Forall (Z.le (percent_of (Z.of_nat a * block_size) total_size))
    (flat_map
       (fun k => percent_of (Z.of_nat k * block_size) total_size
                 :: (if total_size <=? Z.of_nat k * block_size then [100] else []))
       (seq b len)).
Proof.
  intros Hbs Ht. revert b. induction len as [|len IH]; intros b Hab; [constructor|].
  cbn [seq flat_map]. apply Forall_app. split; [|apply IH; lia].
  constructor.
  - apply percent_of_mono; [exact Ht|nia].
  - destruct (total_size <=? _); constructor; [|constructor].
    unfold percent_of. lia.
Qed.

Lemma shown_values_sorted block_size total_size (a len : nat) :
  0 <= block_size -> 0 < total_size ->
  StronglySorted Z.le
    (flat_map
       (fun k => percent_of (Z.of_nat k * block_size) total_size
                 :: (if total_size <=? Z.of_nat k * block_size then [100] else []))
       (seq a len)).
Proof.
  intros Hbs Ht. revert a. induction len as [|len IH]; intros a; [constructor|].
  cbn [seq flat_map].
  pose proof (shown_values_at_least block_size total_size a (S a) len Hbs Ht
                ltac:(lia)) as Hrest.
  destruct (Z.leb_spec total_size (Z.of_nat a * block_size)) as [Hfull|Hpart].
  - rewrite percent_of_full in * by assumption. cbn [app].
    constructor; [constructor; [apply IH|exact Hrest]|].
    constructor; [lia|exact Hrest].
  - cbn [app]. constructor; [apply IH|exact Hrest].
Qed.

Lemma last_app_cons {A} (l l' : list A) x d :
  List.last (l ++ x :: l') d = List.last (x :: l') d.
Proof.
  induction l as [|y l IH]; [reflexivity|].
  cbn [app]. rewrite <- IH. by destruct l.
Qed.

(** X4.  During a transfer as [urlretrieve] reports it (blocks [0] to
    [n], a block size that is not negative, a known total) the progress bar
    never goes back: the values shown are in ascending order, and the last
    one is the percentage of the last block. *)
Theorem transfer_progress_ascends (n : nat) block_size total_size self :
  0 <= block_size -> 0 < total_size ->
  Z.of_nat n * block_size * 100 < 2 ^ 53 ->
  exists self',
    report handle_progress (blocks_read n block_size total_size) self = (self', Ok tt)
    /\ StronglySorted Z.le (set_values (emitted self self'))
    /\ progress_bar self' = percent_of (Z.of_nat n * block_size) total_size.
Proof.
  intros Hbs Ht Hn. unfold blocks_read. rewrite report_blocks; [|exact Hbs|exact Ht|].
  - eexists. split; [reflexivity|]. rewrite set_values_shown.
    split; [by apply shown_values_sorted|].
    unfold shown. cbn [progress_bar].
    rewrite seq_S, flat_map_app. cbn [Nat.add flat_map]. rewrite app_nil_r.
    rewrite last_app_cons.
    destruct (Z.leb_spec total_size (Z.of_nat n * block_size)) as [Hfull|Hpart].
    + cbn. by rewrite percent_of_full.
    + reflexivity.
  - apply List.Forall_forall. intros k Hk. apply in_seq in Hk. nia.
Qed.


(** ** The URL resolver *)

Lemma contains_take c n (s : str) :
  contains c s = false -> contains c (take n s) = false.
Proof.
  revert n. induction s as [|x s IH]; intros [|n] H; try reflexivity.
  cbn in *. apply orb_false_iff in H as [-> H]. by apply IH.
Qed.

Lemma contains_drop c n (s : str) :
  contains c s = false -> contains c (drop n s) = false.
Proof.
  revert n. induction s as [|x s IH]; intros [|n] H; try done.
  cbn in *. apply orb_false_iff in H as [_ H]. by apply IH.
Qed.

Lemma contains_slice_to c i (s : str) :
  contains c s = false -> contains c (slice_to i s) = false.
Proof. apply contains_take. Qed.

Lemma contains_slice_from c i (s : str) :
  contains c s = false -> contains c (slice_from i s) = false.
Proof. apply contains_drop. Qed.

Lemma contains_remove c d (s : str) :
  contains c s = false -> contains c (remove d s) = false.
Proof.
  induction s as [|x s IH]; [done|]. cbn. intros H.
  apply orb_false_iff in H as [Hx H].
  destruct (negb (x =? d)%N); cbn; [rewrite Hx|]; by apply IH.
Qed.

Lemma contains_lstrip c p (s : str) :
  contains c s = false -> contains c (lstrip p s) = false.
Proof.
  induction s as [|x s IH]; [done|]. cbn [lstrip]. intros H.
  destruct (p x); [|exact H].
  cbn in H. apply orb_false_iff in H as [_ H]. by apply IH.
Qed.

(** A URL without a question mark has no query string. *)
Lemma urlsplit_no_query url s n p q f :
  contains (ch "?") url = false ->
  parse.urlsplit NFKC _check_bracketed_host url = Ok (s, n, p, q, f) ->
  q = [].
Proof.
  intros Hq. unfold parse.urlsplit.
  assert (H1 : contains (ch "?")
                 (parse.remove_unsafe (lstrip parse.is_c0_control_or_space url))
               = false).
  { unfold parse.remove_unsafe. by repeat apply contains_remove; apply contains_lstrip. }
  revert H1.
  generalize (parse.remove_unsafe (lstrip parse.is_c0_control_or_space url)).
  clear Hq. intros u H1. cbv zeta.
  assert (Hend : forall scheme netloc (v : str),
             contains (ch "?") v = false ->
             (let '(url0, fragment) :=
                if contains (ch "#") v
                then let '(u0, _, f0) := partition (ch "#") v in (u0, f0)
                else (v, []) in
              let '(url1, query) :=
                if contains (ch "?") url0
                then let '(u0, _, q0) := partition (ch "?") url0 in (u0, q0)
                else (url0, []) in
              parse._checknetloc NFKC netloc;;
              Ok (scheme, netloc, url1, query, fragment))
             = Ok (s, n, p, q, f) -> q = []).
  { intros scheme netloc v Hv.
    destruct (contains (ch "#") v).
    - unfold partition.
      destruct (find (ch "#") v <? 0).
      + rewrite Hv. destruct (parse._checknetloc NFKC netloc); [|discriminate].
        cbn. by intros [= _ _ _ <- _].
      + rewrite (contains_slice_to _ _ _ Hv).
        destruct (parse._checknetloc NFKC netloc); [|discriminate].
        cbn. by intros [= _ _ _ <- _].
    - rewrite Hv. destruct (parse._checknetloc NFKC netloc); [|discriminate].
      cbn. by intros [= _ _ _ <- _]. }
  assert (Hnet : forall scheme (v : str),
             contains (ch "?") v = false ->
             ('(netloc, url0) ←
                (if str_eqb (slice_to 2 v) (py "//")
                 then
                   let '(netloc, url0) := parse._splitnetloc v 2 in
                   if (contains (ch "[") netloc && negb (contains (ch "]") netloc))
                      || (contains (ch "]") netloc && negb (contains (ch "[") netloc))
                   then Raise (Exc ValueError (py "Invalid IPv6 URL"))
                   else
                     (if contains (ch "[") netloc && contains (ch "]") netloc
                      then parse._check_bracketed_netloc _check_bracketed_host netloc
                      else Ok tt);;
                     Ok (netloc, url0)
                 else Ok ([], v));
              let '(url1, fragment) :=
                if contains (ch "#") url0
                then let '(u0, _, f0) := partition (ch "#") url0 in (u0, f0)
                else (url0, []) in
              let '(url2, query) :=
                if contains (ch "?") url1
                then let '(u0, _, q0) := partition (ch "?") url1 in (u0, q0)
                else (url1, []) in
              parse._checknetloc NFKC netloc;;
              Ok (scheme, netloc, url2, query, fragment))
             = Ok (s, n, p, q, f) -> q = []).
  { intros scheme v Hv.
    destruct (str_eqb (slice_to 2 v) (py "//")).
    - unfold parse._splitnetloc.
      destruct (_ || _); [discriminate|].
      destruct (_ && _).
      + destruct (parse._check_bracketed_netloc _ _); [|discriminate].
        cbn [mbind result_bind rbind]. apply Hend. by apply contains_slice_from.
      + cbn [mbind result_bind rbind]. apply Hend. by apply contains_slice_from.
    - cbn [mbind result_bind rbind]. by apply Hend. }
  destruct (_ && _).
  - apply Hnet. by apply contains_slice_from.
  - by apply Hnet.
Qed.


Lemma urlparse_query url parsed :
  urlparse url = Ok parsed ->
  exists s n p f,
    parse.urlsplit NFKC _check_bracketed_host url = Ok (s, n, p, parse.query parsed, f).
Proof.
  unfold urlparse, parse.urlparse.
  destruct (parse.urlsplit NFKC _check_bracketed_host url)
    as [[[[[s n] p] q] f]|e]; [|discriminate].
  cbn [mbind result_bind rbind].
  destruct (if bool_decide (s ∈ parse.uses_params) && contains (ch ";") p
            then parse._splitparams p else (p, [])) as [u ps].
  intros [= <-]. cbn [parse.query].
  by exists s, n, p, f.
Qed.

(** X5.  A URL in which no question mark occurs is never rewritten: when
    [urlparse] accepts it, the resolver returns it as it is. *)
Theorem extract_media_url_no_query url parsed :
  contains (ch "?") url = false ->
  urlparse url = Ok parsed ->
  extract_media_url url = Ok url.
Proof.
  intros Hq Hparse. rewrite extract_media_url_eq, Hparse.
  cbn [mbind result_bind rbind].
  destruct (urlparse_query url parsed Hparse) as (s & n & p & f & Hsplit).
  by rewrite (urlsplit_no_query url s n p _ f Hq Hsplit).
Qed.

(** X6.  The resolver adds no failure of its own: it raises what
    [urlparse] raises and nothing else (the index [0] it takes always
    exists), and what it returns is its argument or a string that is not
    empty. *)
Theorem extract_media_url_outcome url :
  match urlparse url with
  | Raise e => extract_media_url url = Raise e
  | Ok _ => exists v, extract_media_url url = Ok v /\ (v = url \/ v <> [])
  end.
Proof.
  rewrite extract_media_url_eq. destruct (urlparse url) as [parsed|e]; [|reflexivity].
  cbn [mbind result_bind rbind]. eexists. split; [reflexivity|].
  destruct (mediaurl_values (parse.query parsed)) as [|v rest] eqn:E; [by left|].
  right. assert (Hv : v ∈ mediaurl_values (parse.query parsed))
    by (rewrite E; apply list_elem_of_here).
  by apply mediaurl_values_spec in Hv as [_ Hv].
Qed.

Lemma split_absent c (s : str) : contains c s = false -> split c s = [s].
Proof.
  induction s as [|x s IH]; [done|]. cbn. intros H.
  apply orb_false_iff in H as [Hx H]. rewrite (IH H).
  rewrite N.eqb_sym, Hx. reflexivity.
Qed.

Lemma split1_at c (pre post : str) :
  contains c pre = false -> split1 c (pre ++ c :: post) = [pre; post].
Proof.
  induction pre as [|x pre IH]; intros H.
  - cbn. by rewrite N.eqb_refl.
  - cbn in *. apply orb_false_iff in H as [Hx H].
    rewrite N.eqb_sym, Hx. by rewrite (IH H).
Qed.

Lemma replace_absent c d (s : str) : contains c s = false -> replace c d s = s.
Proof.
  induction s as [|x s IH]; [done|]. cbn. intros H.
  apply orb_false_iff in H as [Hx H]. rewrite N.eqb_sym, Hx. f_equal. by apply IH.
Qed.

(** X7.  When the query string is the one field [mediaurl=v], the
    resolver returns [v] decoded as a form value: each [+] replaced by a
    space, then the percent escapes expanded.  A value that holds neither
    is returned as it stands. *)
Theorem extract_media_url_decodes url parsed (v : str) :
  urlparse url = Ok parsed ->
  parse.query parsed = py "mediaurl=" ++ v ->
  v <> [] ->
  contains (ch "&") v = false ->
  extract_media_url url = Ok (parse.unquote (replace (ch "+") (ch " ") v))
  /\ (contains (ch "+") v = false -> contains (ch "%") v = false ->
      extract_media_url url = Ok v).
Proof.
  intros Hparse Hquery Hv Hamp.
  assert (E : extract_media_url url
              = Ok (parse.unquote (replace (ch "+") (ch " ") v))).
  { rewrite extract_media_url_eq, Hparse. cbn [mbind result_bind rbind].
    rewrite Hquery. unfold mediaurl_values, query_parameters, parse.parse_qsl.
    change (truthy (py "mediaurl=" ++ v)) with true. cbv iota.
    rewrite split_absent by (rewrite contains_app; by rewrite Hamp).
    cbn [flat_map]. change (truthy (py "mediaurl=" ++ v)) with true.
    cbn [negb]. change (py "mediaurl=" ++ v) with (py "mediaurl" ++ ch "=" :: v).
    rewrite split1_at by reflexivity.
    rewrite orb_true_r, app_nil_r. cbn [List.filter].
    change (parse.unquote (replace (ch "+") (ch " ") (py "mediaurl")))
      with (py "mediaurl").
    rewrite unquote_truthy, replace_truthy.
    apply truthy_nonempty in Hv. rewrite Hv.
    change (str_eqb (py "mediaurl") (py "mediaurl")) with true. reflexivity. }
  split; [exact E|].
  intros Hplus Hpct. rewrite E, replace_absent by exact Hplus.
  unfold parse.unquote. by rewrite Hpct.
Qed.


(** ** Extensions *)

Lemma rfind_absent c (s : str) : contains c s = false <-> rfind c s < 0.
Proof.
  induction s as [|x s IH]; [cbn; split; [lia|done]|].
  cbn [rfind contains existsb]. fold (contains c s).
  destruct (Z.leb_spec 0 (rfind c s)) as [Hi|Hi].
  - split; [|lia]. intros H. apply orb_false_iff in H as [_ H].
    apply IH in H. lia.
  - rewrite N.eqb_sym. destruct (N.eqb x c); cbn [orb].
    + split; [done|lia].
    + split; [lia|]. intros _. by apply IH.
Qed.

Lemma rfind_ge c (s : str) : -1 <= rfind c s.
Proof.
  induction s as [|x s IH]; cbn [rfind]; [lia|].
  destruct (0 <=? rfind c s); [lia|]. destruct (N.eqb x c); lia.
Qed.

Lemma rfind_last c (pre post : str) :
  contains c post = false -> rfind c (pre ++ c :: post) = len pre.
Proof.
  intros Hpost. induction pre as [|x pre IH].
  - cbn [app rfind]. apply rfind_absent in Hpost.
    destruct (Z.leb_spec 0 (rfind c post)); [lia|]. by rewrite N.eqb_refl.
  - cbn [app rfind]. rewrite IH.
    destruct (Z.leb_spec 0 (len pre)) as [_|H].
    + unfold len. cbn [length]. lia.
    + unfold len in H. lia.
Qed.

Lemma rfind_split_last c (s : str) :
  0 <= rfind c s ->
  exists pre post,
    s = pre ++ c :: post /\ rfind c s = len pre /\ contains c post = false.
Proof.
  induction s as [|x s IH]; cbn [rfind]; [lia|].
  destruct (Z.leb_spec 0 (rfind c s)) as [Hi|Hi].
  - intros _. destruct (IH Hi) as (pre & post & -> & E & Hpost).
    exists (x :: pre), post. split; [reflexivity|]. split; [|exact Hpost].
    rewrite E. unfold len. cbn [length]. lia.
  - destruct (N.eqb_spec x c) as [->|_]; [|lia].
    intros _. exists [], s. split; [reflexivity|]. split; [reflexivity|].
    by apply rfind_absent.
Qed.

(** The suffix of a path starts at the last dot of its name, when that
    dot is neither the first nor the last character. *)
Lemma suffix_of_name p (stem ext : str) :
  stem <> [] -> ext <> [] -> contains (ch ".") ext = false ->
  pathlib.name p = stem ++ ch "." :: ext ->
  pathlib.suffix p = ch "." :: ext.
Proof.
  intros Hstem Hext Hdot Hname. unfold pathlib.suffix. cbv zeta.
  rewrite Hname, rfind_last by exact Hdot.
  assert (0 < len stem) by (destruct stem; [done|unfold len; cbn [length]; lia]).
  assert (len stem < len (stem ++ ch "." :: ext) - 1).
  { unfold len. rewrite length_app. cbn [length].
    destruct ext; [done|cbn [length]; lia]. }
  destruct (Z.ltb_spec 0 (len stem)); [|lia].
  destruct (Z.ltb_spec (len stem) (len (stem ++ ch "." :: ext) - 1)); [|lia].
  cbn [andb]. by rewrite slice_from_len.
Qed.

Lemma suffix_last_dot p :
  pathlib.suffix p <> [] ->
  exists stem ext,
    stem <> [] /\ ext <> [] /\ contains (ch ".") ext = false
    /\ pathlib.name p = stem ++ ch "." :: ext
    /\ pathlib.suffix p = ch "." :: ext.
Proof.
  unfold pathlib.suffix. cbv zeta.
  destruct (Z.ltb_spec 0 (rfind (ch ".") (pathlib.name p))) as [Hi|_]; [|done].
  destruct (rfind_split_last (ch ".") (pathlib.name p) ltac:(lia))
    as (pre & post & E & Hlen & Hpost).
  rewrite Hlen, E in *. cbn [andb].
  destruct (Z.ltb_spec (len pre) (len (pre ++ ch "." :: post) - 1)) as [Hlt|_];
    [|done].
  intros _. exists pre, post. rewrite slice_from_len.
  unfold len in *. rewrite length_app in Hlt. cbn [length] in Hlt.
  repeat split; try done.
  - intros ->. cbn in Hi. lia.
  - intros ->. cbn in Hlt. lia.
Qed.

(** X8.  A path counts as having an extension exactly when the last dot
    of its final component is neither the first nor the last character of
    that component: the extension is what follows the last dot.  Names
    such as [.bashrc] and [notes.] have none. *)
Theorem has_extension_iff p :
  has_extension p = true <->
  exists stem ext,
    stem <> [] /\ ext <> [] /\ contains (ch ".") ext = false
    /\ pathlib.name p = stem ++ ch "." :: ext.
Proof.
  rewrite has_extension_suffix. split.
  - intros Hs. destruct (suffix_last_dot p Hs) as (stem & ext & H1 & H2 & H3 & H4 & _).
    by exists stem, ext.
  - intros (stem & ext & H1 & H2 & H3 & H4).
    by rewrite (suffix_of_name p stem ext).
Qed.


Lemma with_suffix_name text ext :
  pathlib.name (pathlib.Path text) <> [] ->
  pathlib.suffix (pathlib.Path text) = [] ->
  contains pathlib.sep ext = false ->
  (ext = [] \/ exists x rest, ext = ch "." :: x :: rest) ->
  exists final,
    pathlib.with_suffix repr (pathlib.Path text) ext = Ok final
    /\ pathlib.name final = pathlib.name (pathlib.Path text) ++ ext.
Proof.
  intros Hname Hsuffix Hsep Hext.
  destruct (Path_parts text) as (comps & Hall & Hdrv & Hparts).
  set (p := pathlib.Path text) in *.
  pose proof (name_of_parts p comps Hdrv Hparts) as Hn.
  assert (Hcomps : comps <> []) by (intros ->; by rewrite Hn in Hname).
  unfold pathlib.with_suffix. rewrite Hsep, Hsuffix. cbv zeta.
  replace ((truthy ext && negb (startswith (ch ".") ext)) || str_eqb ext (py "."))
    with false by (by destruct Hext as [->|(x & rest & ->)]).
  destruct (truthy (pathlib.name p)) eqn:Ht;
    [|by apply truthy_nonempty in Hname; rewrite Hname in Ht].
  cbn [negb truthy]. eexists. split; [reflexivity|].
  rewrite (name_of_parts _ (List.removelast comps ++ [List.last comps [] ++ ext])).
  - by rewrite List.last_last, Hn.
  - exact Hdrv.
  - cbn [pathlib._root pathlib._parts]. rewrite Hn.
    destruct Hparts as [[Hroot ->]|[Hroot ->]]; [by left|right].
    split; [exact Hroot|].
    destruct comps as [|c comps]; [done|reflexivity].
Qed.

(** X9.  When the destination has a name and no extension and the URL's
    path has one, the destination that [download] passes on carries
    exactly that extension, and normalising it a second time changes
    nothing. *)
Theorem normalize_gives_extension text url parsed :
  pathlib.suffix (pathlib.Path text) = [] ->
  pathlib.name (pathlib.Path text) <> [] ->
  urlparse url = Ok parsed ->
  pathlib.suffix (pathlib.Path (parse.path parsed)) <> [] ->
  exists final,
    normalize (pathlib.Path text) url = Ok final
    /\ pathlib.suffix final = pathlib.suffix (pathlib.Path (parse.path parsed))
    /\ has_extension final = true
    /\ normalize final url = Ok final.
Proof.
  intros Hsuffix Hname Hparse Hext.
  destruct (suffix_valid (parse.path parsed)) as [Hsep Hshape].
  destruct (with_suffix_name text _ Hname Hsuffix Hsep Hshape) as (final & Hw & Hn).
  destruct (suffix_last_dot _ Hext) as (stem & ext & _ & Hne & Hdot & _ & Hs).
  assert (Hfinal : pathlib.suffix final
                   = pathlib.suffix (pathlib.Path (parse.path parsed))).
  { rewrite Hs. apply (suffix_of_name final (pathlib.name (pathlib.Path text)) ext);
      try done. by rewrite Hn, Hs. }
  assert (Hhas : has_extension final = true).
  { apply has_extension_suffix. by rewrite Hfinal. }
  exists final. repeat split; try done.
  - unfold normalize.
    replace (has_extension (pathlib.Path text)) with false.
    + cbn [negb]. rewrite Hparse. exact Hw.
    + symmetry. apply not_true_is_false. intros H.
      by apply has_extension_suffix in H.
  - unfold normalize. by rewrite Hhas.
Qed.


(** ** Downloads and the file dialog *)

(** While every percentage can be computed the callback returns, and the
    run of notifications with it. *)
Lemma report_computable blocks self :
  Forall computable blocks -> (report handle_progress blocks self).2 = Ok tt.
Proof.
  intros Hall. revert self.
  induction Hall as [|[[bn bs] ts] blocks Hc _ IH]; intros self; [reflexivity|].
  cbn [report]. unfold mbind at 1. unfold GUI_bind.
  rewrite handle_progress_eq. cbv zeta.
  destruct (Z.ltb_spec 0 ts) as [Ht|Ht]; [|apply IH].
  pose proof (int_truediv_raises (bn * bs * 100) ts Ht) as Hdiv.
  destruct (int_truediv _ _) as [p|e]; [apply IH|].
  unfold computable in Hc. lia.
Qed.

(** The first percentage that cannot be computed ends the run with the
    [OverflowError] of the division. *)
Lemma report_overflow before bn bs ts after self :
  Forall computable before ->
  0 < ts ->
  overflow_threshold * ts <= Z.abs (bn * bs * 100) ->
  (report handle_progress (before ++ (bn, bs, ts) :: after) self).2
  = Raise (Exc OverflowError (py "integer division result too large for a float")).
Proof.
  intros Hall Ht Hover. revert self.
  induction Hall as [|[[bn' bs'] ts'] blocks Hc _ IH]; intros self.
  - cbn [app report]. unfold mbind at 1. unfold GUI_bind.
    rewrite handle_progress_eq. cbv zeta.
    destruct (Z.ltb_spec 0 ts) as [_|H]; [|lia].
    pose proof (int_truediv_raises (bn * bs * 100) ts Ht) as Hdiv.
    destruct (int_truediv _ _) as [p|e]; [lia|].
    destruct Hdiv as [_ ->]. reflexivity.
  - cbn [app report]. unfold mbind at 1. unfold GUI_bind.
    rewrite handle_progress_eq. cbv zeta.
    destruct (Z.ltb_spec 0 ts') as [Ht'|Ht']; [|apply IH].
    pose proof (int_truediv_raises (bn' * bs' * 100) ts' Ht') as Hdiv.
    destruct (int_truediv _ _) as [p|e]; [apply IH|].
    unfold computable in Hc. lia.
Qed.

(** No notification shows a value above [100]. *)
Lemma report_shown_bounded blocks self :
  exists values,
    (report handle_progress blocks self).1 = shown values self
    /\ Forall (fun v => v <= 100) values.
Proof.
  revert self. induction blocks as [|[[bn bs] ts] blocks IH]; intros self.
  - exists []. by rewrite shown_nil.
  - cbn [report]. unfold mbind at 1. unfold GUI_bind.
    rewrite handle_progress_eq. cbv zeta.
    assert (Hfull : Forall (fun v => v <= 100) (if ts <=? bn * bs then [100] else []))
      by (destruct (ts <=? bn * bs); repeat constructor; lia).
    destruct (0 <? ts).
    + destruct (int_truediv _ _) as [p|e].
      * destruct (IH (shown ((if 100 <? p then 100 else p)
                               :: (if ts <=? bn * bs then [100] else [])) self))
          as (values & E & Hall).
        eexists. rewrite E. split; [apply shown_app|].
        apply Forall_app. split; [|exact Hall].
        constructor; [|exact Hfull]. destruct (Z.ltb_spec 100 p); lia.
      * exists []. by rewrite shown_nil.
    + destruct (IH (shown (if ts <=? bn * bs then [100] else []) self))
        as (values & E & Hall).
      eexists. rewrite E. split; [apply shown_app|].
      apply Forall_app. by split.
Qed.

(** How [urlretrieve] ends: as the callback did when it raised, and
    otherwise as the network has the transfer end. *)
Lemma fetch_result self url location :
  (fetch self url location).2 =
    match (report handle_progress (notifications (network url location))
             (record (urlretrieve_start url location) (cleared self))).2 with
    | Ok _ =>
        match outcome (network url location) with
        | None => Ok tt
        | Some e => Raise e
        end
    | Raise e => Raise e
    end.
Proof.
  unfold fetch, urlretrieve.
  unfold mbind at 1. unfold GUI_bind. unfold emit at 1.
  unfold mbind at 1. unfold GUI_bind.
  destruct (report handle_progress _ _) as [s1 [[]|e]]; cbn [snd]; [|reflexivity].
  destruct (outcome (network url location)); reflexivity.
Qed.

Lemma fetch_shown_bounded self url location :
  exists values,
    (fetch self url location).1
    = shown values (record (urlretrieve_start url location) (cleared self))
    /\ Forall (fun v => v <= 100) values.
Proof.
  unfold fetch, urlretrieve.
  unfold mbind at 1. unfold GUI_bind. unfold emit at 1.
  unfold mbind at 1. unfold GUI_bind.
  destruct (report_shown_bounded (notifications (network url location))
              (record (urlretrieve_start url location) (cleared self)))
    as (values & E & Hall).
  exists values. split; [|exact Hall].
  destruct (report handle_progress _ _) as [s1 [[]|e]]; cbn [fst] in *;
    [|exact E].
  destruct (outcome (network url location)); exact E.
Qed.

Lemma shown_values_eq vs ws self : shown vs self = shown ws self -> vs = ws.
Proof.
  intros E. by rewrite <- (set_values_shown vs self), E, set_values_shown.
Qed.

Lemma set_values_setValue_processEvents values :
  set_values (flat_map (fun v => [progress_bar_setValue v; processEvents]) values)
  = values.
Proof. by rewrite <- (emitted_shown values (window [] [])), set_values_shown. Qed.

Lemma Forall_last {A} (P : A -> Prop) l d : Forall P l -> P d -> P (List.last l d).
Proof.
  intros Hall Hd. induction Hall as [|x l Hx Hall IH]; [exact Hd|].
  destruct l; [exact Hx|exact IH].
Qed.

(** X10.  When every percentage of the transfer can be computed, the one
    message box of a download is decided by how the network has the
    transfer end: the information box when it ends well, and then the
    indicator is back at [0]; the warning
    [Failed to download the file. Error: ] for a [URLError], an
    [HTTPError] or a [ContentTooShortError]; the warning
    [An error occurred: ] for an exception of any other class. *)
Theorem download_reports_outcome self url location :
  prepare self = Ok (url, location) ->
  Forall computable (notifications (network url location)) ->
  exists self',
    download self = (self', Ok tt)
    /\ List.filter is_dialog (emitted self self')
       = [match outcome (network url location) with
          | None =>
              QMessageBox_information (py "Download Completed")
                (py "The Download Completed Successfully")
          | Some e =>
              match exc_type e with
              | URLError | HTTPError | ContentTooShortError =>
                  QMessageBox_warning (py "Download Error")
                    (py "Failed to download the file. Error: " ++ exc_str e)
              | ValueError | ZeroDivisionError | OverflowError | IndexError
              | OSError | OtherException =>
                  QMessageBox_warning (py "Download Error")
                    (py "An error occurred: " ++ exc_str e)
              end
          end]
    /\ (outcome (network url location) = None -> progress_bar self' = 0).
Proof.
  intros Hprep Hall.
  destruct (download_run self url location Hprep) as (values & _ & E).
  pose proof (fetch_result self url location) as Hf.
  rewrite (report_computable _ _ Hall) in Hf.
  eexists. split; [exact E|].
  erewrite emitted_app by reflexivity.
  rewrite !List.filter_app, !filter_shown_events by done.
  cbn [progress_bar]. rewrite Hf.
  destruct (outcome (network url location)) as [[class text]|]; split;
    try reflexivity.
  - destruct class; reflexivity.
  - intros [=].
Qed.

(** X11.  A notification whose percentage overflows the float division
    ends the transfer: the download shows the generic warning with the
    text of the [OverflowError], however the network would have had the
    transfer end, and returns. *)
Theorem download_callback_overflow self url location before bn bs ts after :
  prepare self = Ok (url, location) ->
  notifications (network url location) = before ++ (bn, bs, ts) :: after ->
  Forall computable before ->
  0 < ts ->
  overflow_threshold * ts <= Z.abs (bn * bs * 100) ->
  exists self',
    download self = (self', Ok tt)
    /\ List.filter is_dialog (emitted self self')
       = [QMessageBox_warning (py "Download Error")
            (py "An error occurred: integer division result too large for a float")].
Proof.
  intros Hprep Hn Hall Ht Hover.
  destruct (download_run self url location Hprep) as (values & _ & E).
  pose proof (fetch_result self url location) as Hf.
  rewrite Hn, (report_overflow _ _ _ _ _ _ Hall Ht Hover) in Hf.
  eexists. split; [exact E|].
  erewrite emitted_app by reflexivity.
  rewrite !List.filter_app, !filter_shown_events by done.
  rewrite Hf. reflexivity.
Qed.

(** X12.  A download never hands a value above [100] to the progress
    indicator, and an indicator that is at most [100] before a download is
    at most [100] after it, however the download ends. *)
Theorem download_indicator_at_most_100 self :
  progress_bar self <= 100 ->
  Forall (fun v => v <= 100) (set_values (emitted self (download self).1))
  /\ progress_bar (download self).1 <= 100.
Proof.
  intros Hbar. destruct (prepare self) as [[url location]|e] eqn:Hprep.
  - destruct (download_run self url location Hprep) as (values & Ef & E).
    destruct (fetch_shown_bounded self url location) as (values' & Ef' & Hall).
    rewrite Ef in Ef'. apply shown_values_eq in Ef'. subst values'.
    rewrite E. cbn [fst progress_bar]. split.
    + erewrite emitted_app by reflexivity.
      unfold set_values. rewrite !flat_map_app.
      fold (set_values (flat_map (fun v => [progress_bar_setValue v; processEvents])
                          values)).
      rewrite set_values_setValue_processEvents. cbn [flat_map app].
      apply Forall_app. split; [exact Hall|].
      destruct (fetch self url location).2; cbn; repeat constructor. lia.
    + destruct (fetch self url location).2; [lia|].
      by apply Forall_last.
  - rewrite (download_prepare_raises _ _ Hprep). cbn [fst]. split; [|exact Hbar].
    unfold emitted. rewrite drop_all. constructor.
Qed.


(** The empty text parses, names no media URL and gives a path without a
    name: preparing a download from two empty fields raises. *)
Lemma prepare_empty_fields self :
  url_line_edit self = [] -> location_line_edit self = [] ->
  prepare self
  = Raise (Exc ValueError
             (py "PosixPath(" ++ repr (py ".") ++ py ") has an empty name")).
Proof.
  intros Hu Hl. unfold prepare. rewrite Hu, Hl.
  assert (Hparse : exists parsed, urlparse [] = Ok parsed /\ parse.query parsed = []
                                  /\ parse.path parsed = [])
    by (eexists; split; [reflexivity|split; reflexivity]).
  destruct Hparse as (parsed & Hparse & Hq & Hp).
  rewrite extract_media_url_eq, Hparse. cbn [mbind result_bind rbind].
  rewrite Hq. cbn [mbind result_bind rbind].
  replace (mediaurl_values []) with (@nil str) by reflexivity.
  cbn [mbind result_bind rbind].
  unfold normalize. rewrite Hparse. cbn [mbind result_bind rbind]. rewrite Hp.
  replace (py "PosixPath(" ++ repr (py ".") ++ py ") has an empty name")
    with (pathlib.__repr__ repr (pathlib.Path []) ++ py " has an empty name").
  - reflexivity.
  - unfold pathlib.__repr__.
    replace (pathlib.__str__ (pathlib.Path [])) with (py ".") by reflexivity.
    rewrite <- !app_assoc. reflexivity.
Qed.

(** X13.  A download that reached the transfer leaves both fields empty,
    so that a second download right after it raises [ValueError] out of
    [download]: the empty destination has no name to put an extension
    on. *)
Theorem download_again_raises self url location :
  prepare self = Ok (url, location) ->
  exists self',
    download self = (self', Ok tt)
    /\ download self'
       = (self', Raise (Exc ValueError
                          (py "PosixPath(" ++ repr (py ".")
                           ++ py ") has an empty name"))).
Proof.
  intros Hprep. destruct (download_run self url location Hprep) as (values & _ & E).
  eexists. split; [exact E|].
  apply download_prepare_raises. by apply prepare_empty_fields.
Qed.

(** X14.  The file name chosen in the dialog is the destination of the
    next download: when it has an extension, [urlretrieve] is called once,
    with the media URL of the URL field and that file name unchanged,
    whatever the location field held before. *)
Theorem browse_then_download (answer : str * str) self url :
  extract_media_url (url_line_edit self) = Ok url ->
  pathlib.suffix (pathlib.Path answer.1) <> [] ->
  exists self',
    (browse answer;; download) self = (self', Ok tt)
    /\ List.filter is_fetch (emitted self self')
       = [urlretrieve_start url (pathlib.Path answer.1)]
    /\ location_line_edit self' = [].
Proof.
  intros Hurl Hsuffix. unfold mbind at 1. unfold GUI_bind, browse. cbv zeta.
  set (chosen := setText_location answer.1 self).
  assert (Hchosen : chosen = (chosen.1, Ok tt)) by reflexivity.
  rewrite Hchosen.
  assert (Hprep : prepare chosen.1 = Ok (url, pathlib.Path answer.1)).
  { unfold prepare. cbn [chosen setText_location record fst url_line_edit
                          location_line_edit].
    rewrite Hurl. cbn [mbind result_bind rbind]. unfold normalize.
    apply has_extension_suffix in Hsuffix. rewrite Hsuffix. reflexivity. }
  destruct (download_run _ _ _ Hprep) as (values & _ & E).
  eexists. split; [exact E|]. split; [|reflexivity].
  erewrite emitted_app.
  2:{ cbn [calls chosen setText_location record fst]. rewrite <- app_assoc.
      reflexivity. }
  rewrite !List.filter_app, !filter_shown_events by done.
  destruct (fetch _ _ _).2; reflexivity.
Qed.

(** X15.  A cancelled file dialog empties the location field, whatever
    the user had typed there, and the download that follows raises out of
    [download]: the window stays as the dialog left it and no message box
    is shown. *)
Theorem browse_cancelled_then_download (answer : str * str) self :
  answer.1 = [] ->
  exists e,
    (browse answer;; download) self = ((browse answer self).1, Raise e)
    /\ location_line_edit (browse answer self).1 = []
    /\ url_line_edit (browse answer self).1 = url_line_edit self
    /\ List.filter is_dialog (emitted self (browse answer self).1) = [].
Proof.
  intros Hcancel. unfold mbind at 1. unfold GUI_bind, browse. cbv zeta.
  rewrite Hcancel.
  set (chosen := setText_location [] self).
  assert (Hchosen : chosen = (chosen.1, Ok tt)) by reflexivity.
  rewrite Hchosen. cbn [fst].
  rewrite download_eq. unfold prepare.
  destruct (extract_media_url (url_line_edit chosen.1)) as [url|e];
    cbn [mbind result_bind rbind].
  - destruct (normalize_empty_name
                (pathlib.Path (location_line_edit chosen.1)) url) as [e ->];
      [reflexivity|].
    exists e. repeat split.
    unfold emitted. cbn [chosen setText_location record fst calls].
    by rewrite drop_app_length.
  - exists e. repeat split.
    unfold emitted. cbn [chosen setText_location record fst calls].
    by rewrite drop_app_length.
Qed.



(** ** What [download] raises *)

Lemma _checknetloc_raises netloc e :
  parse._checknetloc NFKC netloc = Raise e -> exc_type e = ValueError.
Proof.
  unfold parse._checknetloc. cbv zeta.
  destruct (_ || _); [discriminate|].
  destruct (str_eqb _ _); [discriminate|].
  destruct (existsb _ _); [|discriminate].
  by intros [= <-].
Qed.

Section address_check.

Hypothesis address_check :
  forall hostname e, _check_bracketed_host hostname = Raise e -> exc_type e = ValueError.

Lemma _check_bracketed_netloc_raises netloc e :
  parse._check_bracketed_netloc _check_bracketed_host netloc = Raise e ->
  exc_type e = ValueError.
Proof.
  unfold parse._check_bracketed_netloc. cbv zeta.
  destruct (partition (ch "[") _) as [[before_bracket have_open_br] bracketed].
  destruct have_open_br.
  - destruct (truthy before_bracket); [by intros [= <-]|].
    destruct (partition (ch "]") bracketed) as [[hostname ?] port].
    destruct (_ && _); [by intros [= <-]|]. apply address_check.
  - destruct (partition (ch ":") _) as [[hostname ?] port]. apply address_check.
Qed.

Lemma urlsplit_raises url e :
  parse.urlsplit NFKC _check_bracketed_host url = Raise e -> exc_type e = ValueError.
Proof.
  unfold parse.urlsplit. cbv zeta.
  match goal with |- context [let '(a, b) := ?x in _] => destruct x as [scheme rest] end.
  destruct (if str_eqb (slice_to 2 rest) (py "//") then _ else _)
    as [[netloc rest']|e'] eqn:Hnetloc; cbn [mbind result_bind rbind].
  - do 2 match goal with
         | |- context [let '(a, b) := ?x in _] => destruct x as [? ?]
         end.
    destruct (parse._checknetloc NFKC netloc) eqn:Hcheck; cbn [rbind];
      [discriminate|].
    intros [= <-]. by eapply _checknetloc_raises.
  - intros [= <-]. revert Hnetloc.
    destruct (str_eqb _ _); [|discriminate].
    destruct (parse._splitnetloc rest 2) as [netloc rest'].
    destruct (_ || _); [by intros [= <-]|].
    destruct (_ && _); cbn [mbind result_bind rbind]; [|discriminate].
    destruct (parse._check_bracketed_netloc _ _) eqn:Hcheck; cbn [rbind];
      [discriminate|].
    intros [= <-]. by eapply _check_bracketed_netloc_raises.
Qed.

(** [urlparse] raises nothing but [ValueError]. *)
Lemma urlparse_raises url e : urlparse url = Raise e -> exc_type e = ValueError.
Proof.
  unfold urlparse, parse.urlparse.
  destruct (parse.urlsplit NFKC _check_bracketed_host url)
    as [[[[[scheme netloc] path] query] fragment]|e'] eqn:Hsplit;
    cbn [mbind result_bind rbind].
  - match goal with |- context [let '(a, b) := ?x in _] => destruct x as [? ?] end.
    discriminate.
  - intros [= <-]. by eapply urlsplit_raises.
Qed.

Lemma with_suffix_raises p ext e :
  pathlib.with_suffix repr p ext = Raise e -> exc_type e = ValueError.
Proof.
  unfold pathlib.with_suffix. cbv zeta.
  destruct (contains _ _); [by intros [= <-]|].
  destruct (_ || _); [by intros [= <-]|].
  destruct (negb _); [by intros [= <-]|discriminate].
Qed.

Lemma prepare_raises self e : prepare self = Raise e -> exc_type e = ValueError.
Proof.
  unfold prepare. rewrite extract_media_url_eq.
  destruct (urlparse (url_line_edit self)) as [parsed|e'] eqn:Hparse;
    cbn [mbind result_bind rbind].
  - unfold normalize. destruct (negb _); [|discriminate].
    match goal with |- context [urlparse ?u] => destruct (urlparse u) as [parsed'|e'] eqn:Hparse' end;
      cbn [mbind result_bind rbind].
    + destruct (pathlib.with_suffix _ _ _) as [final|e'] eqn:Hw;
        cbn [rbind]; [discriminate|].
      intros [= <-]. by eapply with_suffix_raises.
    + intros [= <-]. by eapply urlparse_raises.
  - intros [= <-]. by eapply urlparse_raises.
Qed.

(** X16.  Whatever leaves [download] is a [ValueError] of the URL parser
    or of [Path.with_suffix], raised before a widget is touched: the
    window is as it was.  What the transfer or the progress callback raise
    never leaves [download].  The address check of module [ipaddress] is
    taken to raise [ValueError] only, as it does. *)
Theorem download_raises_ValueError self e :
  (download self).2 = Raise e ->
  exc_type e = ValueError /\ (download self).1 = self.
Proof.
  rewrite download_eq.
  destruct (prepare self) as [[url location]|e'] eqn:Hprep.
  - destruct (fetch self url location).2 as [[]|e'']; discriminate.
  - cbn [fst snd]. intros [= <-]. split; [|reflexivity].
    by eapply prepare_raises.
Qed.

End address_check.

End App.

(** * Closed instances

    The theorems above at concrete inputs, and the inputs at which the
    claims of the specification that were amended fail as written. *)

(** C2 at [(10, 1024, 10240)]: the indicator ends at [100]. *)
Lemma handle_progress_at_most_100_witness :
  exists self',
    handle_progress 10 1024 10240 (window [] []) = (self', Ok tt)
    /\ progress_bar self' = 100
    /\ List.last (set_values (emitted (window [] []) self')) 0 = 100.
Proof.
  apply (handle_progress_at_most_100 10 1024 10240 (window [] [])).
  - lia.
  - lia.
  - vm_compute. reflexivity.
Defined.

(** C2 as written fails where the division overflows: at
    [(2 ^ 1024, 1, 1)] the bytes read reach the total, which is positive,
    and the callback raises [OverflowError] without setting the indicator. *)
Lemma handle_progress_overflow :
  0 < 1 /\ 1 <= 2 ^ 1024 * 1
  /\ handle_progress (2 ^ 1024) 1 1 (window [] [])
     = (window [] [],
        Raise (Exc OverflowError (py "integer division result too large for a float")))
  /\ progress_bar (window [] []) <> 100.
Proof. vm_compute. repeat split; discriminate. Qed.

(** C7 at [(5, 1024, 10240)]: the percentage is [50]. *)
Lemma handle_progress_percentage_witness :
  exists self',
    handle_progress 5 1024 10240 (window [] []) = (self', Ok tt)
    /\ head (set_values (emitted (window [] []) self')) = Some 50
    /\ progress_bar self' = 50.
Proof.
  apply (handle_progress_percentage 5 1024 10240 (window [] [])).
  - lia.
  - lia.
  - vm_compute. reflexivity.
Defined.

(** C7 at [(10, 1024, 10240)]: the percentage is [100]. *)
Example handle_progress_complete :
  handle_progress 10 1024 10240 (window [] []) = (shown [100; 100] (window [] []), Ok tt).
Proof. vm_compute. reflexivity. Qed.

(** C7 as written fails where the double nearest to the quotient is the
    next integer: with [2 ^ 59 - 1] bytes read of [2 ^ 60] the quotient is
    [50 - 100 / 2 ^ 60], the floor is [49] and the callback shows [50]. *)
Lemma handle_progress_rounds_up :
  0 < 2 ^ 60
  /\ handle_progress (2 ^ 59 - 1) 1 (2 ^ 60) (window [] [])
     = (shown [50] (window [] []), Ok tt)
  /\ Z.min 100 ((2 ^ 59 - 1) * 1 * 100 / 2 ^ 60) = 49.
Proof. vm_compute. repeat split. Qed.

(** It also fails on negative arguments, where [int()] truncates towards
    zero: [int(-100 / 3)] is [-33] and the floor is [-34]. *)
Example handle_progress_truncates :
  handle_progress (-1) 1 3 (window [] []) = (shown [-33] (window [] []), Ok tt)
  /\ Z.min 100 (-1 * 1 * 100 / 3) = -34.
Proof. vm_compute. repeat split. Qed.

(** Scenario A of the specification: the resolver returns the value of
    [mediaurl]. *)
Lemma extract_media_url_spec_witness :
  extract_media_url NFKC_ascii no_bracketed_host
    (py "https://example.com/x?mediaurl=https://cdn.example.com/file.bin")
  = Ok (py "https://cdn.example.com/file.bin").
Proof.
  pose (parsed :=
          {| parse.scheme := py "https"; parse.netloc := py "example.com";
             parse.path := py "/x"; parse.params := [];
             parse.query := py "mediaurl=https://cdn.example.com/file.bin";
             parse.fragment := [] |}).
  assert (Hparse : urlparse NFKC_ascii no_bracketed_host
                     (py "https://example.com/x?mediaurl=https://cdn.example.com/file.bin")
                   = Ok parsed) by (vm_compute; reflexivity).
  destruct (extract_media_url_spec NFKC_ascii no_bracketed_host _ _ Hparse) as [H _].
  apply (H (py "https://cdn.example.com/file.bin") []).
  vm_compute. reflexivity.
Defined.

(** A URL that [urlparse] accepts and that holds two values of
    [mediaurl]: the first is returned. *)
Lemma extract_media_url_first_of_many_witness :
  extract_media_url NFKC_ascii no_bracketed_host
    (py "http://example.com/?mediaurl=http://a/1.bin&mediaurl=http://b/2.bin")
  = Ok (py "http://a/1.bin").
Proof.
  pose (parsed :=
          {| parse.scheme := py "http"; parse.netloc := py "example.com";
             parse.path := py "/"; parse.params := [];
             parse.query := py "mediaurl=http://a/1.bin&mediaurl=http://b/2.bin";
             parse.fragment := [] |}).
  apply (extract_media_url_first_of_many NFKC_ascii no_bracketed_host _ parsed
           (py "http://a/1.bin") (py "http://b/2.bin") []).
  - vm_compute. reflexivity.
  - vm_compute. reflexivity.
Defined.

(** C4 on scenario A: [/tmp/out] becomes [/tmp/out.bin]. *)
Lemma normalize_spec_witness :
  exists final,
    normalize NFKC_ascii no_bracketed_host repr_plain (pathlib.Path (py "/tmp/out"))
      (py "https://cdn.example.com/file.bin") = Ok final
    /\ pathlib.__str__ final = py "/tmp/out.bin".
Proof.
  pose (parsed :=
          {| parse.scheme := py "https"; parse.netloc := py "cdn.example.com";
             parse.path := py "/file.bin"; parse.params := [];
             parse.query := []; parse.fragment := [] |}).
  destruct (normalize_spec NFKC_ascii no_bracketed_host repr_plain (py "/tmp/out")
              (py "https://cdn.example.com/file.bin")) as [_ H].
  destruct (H ltac:(vm_compute; reflexivity) ltac:(vm_compute; discriminate) parsed
              ltac:(vm_compute; reflexivity)) as (final & E & Hstr & _).
  exists final. split; [exact E|]. rewrite Hstr. vm_compute. reflexivity.
Defined.

(** C4 on scenario B: [/tmp/report.txt] is returned unchanged. *)
Example normalize_keeps_extension :
  normalize NFKC_ascii no_bracketed_host repr_plain (pathlib.Path (py "/tmp/report.txt"))
    (py "https://example.com/file.txt")
  = Ok (pathlib.Path (py "/tmp/report.txt")).
Proof. vm_compute. reflexivity. Qed.

(** C4 as written fails on a destination without a name: the empty
    destination has no suffix, and instead of the suffix [.bin] being
    appended [with_suffix] raises [ValueError]. *)
Lemma normalize_empty_destination :
  pathlib.suffix (pathlib.Path []) = []
  /\ normalize NFKC_ascii no_bracketed_host repr_plain (pathlib.Path [])
       (py "https://example.com/file.bin")
     = Raise (Exc ValueError (py "PosixPath('.') has an empty name")).
Proof. vm_compute. split; reflexivity. Qed.

(** C5 on scenario D: the transfer is refused, the warning of the first
    handler is the one message box. *)
Lemma download_classifies_witness :
  exists self',
    download NFKC_ascii no_bracketed_host repr_plain refusing_network
      (window (py "https://example.com/file.txt") (py "/tmp/report.txt"))
    = (self', Ok tt)
    /\ List.filter is_dialog (calls self')
       = [QMessageBox_warning (py "Download Error")
            (py "Failed to download the file. Error: <urlopen error [Errno 111] Connection refused>")].
Proof.
  destruct (download_classifies NFKC_ascii no_bracketed_host repr_plain refusing_network
              (window (py "https://example.com/file.txt") (py "/tmp/report.txt"))
              (py "https://example.com/file.txt") (pathlib.Path (py "/tmp/report.txt"))
              ltac:(vm_compute; reflexivity)) as (self' & E & _ & Hd).
  exists self'. split; [exact E|].
  change (calls self') with (emitted (window (py "https://example.com/file.txt")
                                        (py "/tmp/report.txt")) self').
  rewrite Hd. vm_compute. reflexivity.
Defined.

(** C5 as written fails on a failure of the connection that [urllib]
    does not wrap: the connection is reset while the body is read, the
    [OSError] leaves [urlretrieve] as it is, and the download shows the
    generic warning, not the one of a network failure. *)
Lemma download_connection_reset :
  outcome (resetting_network (py "https://example.com/file.txt")
             (pathlib.Path (py "/tmp/report.txt")))
  = Some (Exc OSError (py "[Errno 104] Connection reset by peer"))
  /\ (download NFKC_ascii no_bracketed_host repr_plain resetting_network
        (window (py "https://example.com/file.txt") (py "/tmp/report.txt"))).2
     = Ok tt
  /\ List.filter is_dialog
       (calls
          (download NFKC_ascii no_bracketed_host repr_plain resetting_network
             (window (py "https://example.com/file.txt") (py "/tmp/report.txt"))).1)
     = [QMessageBox_warning (py "Download Error")
          (py "An error occurred: [Errno 104] Connection reset by peer")].
Proof. vm_compute. repeat split. Qed.

(** C6 on scenario D: the indicator stays at [40], the last value shown. *)
Lemma download_progress_after_witness :
  exists self',
    download NFKC_ascii no_bracketed_host repr_plain refusing_network
      (window (py "https://example.com/file.txt") (py "/tmp/report.txt"))
    = (self', Ok tt)
    /\ progress_bar self' = 40.
Proof.
  destruct (download_progress_after NFKC_ascii no_bracketed_host repr_plain
              refusing_network
              (window (py "https://example.com/file.txt") (py "/tmp/report.txt"))
              (py "https://example.com/file.txt") (pathlib.Path (py "/tmp/report.txt"))
              ltac:(vm_compute; reflexivity)) as (self' & E & H).
  exists self'. split; [exact E|].
  assert (Hf : (fetch refusing_network
                  (window (py "https://example.com/file.txt") (py "/tmp/report.txt"))
                  (py "https://example.com/file.txt")
                  (pathlib.Path (py "/tmp/report.txt"))).2
               = Raise (Exc URLError
                          (py "<urlopen error [Errno 111] Connection refused>")))
    by (vm_compute; reflexivity).
  rewrite Hf in H. destruct H as [_ H]. rewrite H. vm_compute. reflexivity.
Defined.

(** C9 on scenario D: both fields are empty after the failed transfer. *)
Lemma download_clears_fields_witness :
  exists self',
    download NFKC_ascii no_bracketed_host repr_plain refusing_network
      (window (py "https://example.com/file.txt") (py "/tmp/report.txt"))
    = (self', Ok tt)
    /\ url_line_edit self' = [] /\ location_line_edit self' = [].
Proof.
  destruct (download_clears_fields NFKC_ascii no_bracketed_host repr_plain
              refusing_network
              (window (py "https://example.com/file.txt") (py "/tmp/report.txt"))
              (py "https://example.com/file.txt") (pathlib.Path (py "/tmp/report.txt"))
              ltac:(vm_compute; reflexivity)) as (self' & later & E & _ & H).
  exists self'. split; [exact E|]. exact H.
Defined.

(** C10 on the input the claim names: an empty destination and a URL
    whose path ends in [.bin]; the window keeps its two fields. *)
Lemma download_raises_before_handlers_witness :
  exists e,
    download NFKC_ascii no_bracketed_host repr_plain refusing_network
      (window (py "https://example.com/file.bin") [])
    = (window (py "https://example.com/file.bin") [], Raise e).
Proof.
  apply (download_raises_before_handlers NFKC_ascii no_bracketed_host repr_plain
           refusing_network (window (py "https://example.com/file.bin") [])).
  vm_compute. reflexivity.
Defined.

(** The error of that run is the [ValueError] of [with_suffix]. *)
Example download_empty_destination :
  download NFKC_ascii no_bracketed_host repr_plain refusing_network
    (window (py "https://example.com/file.bin") [])
  = (window (py "https://example.com/file.bin") [],
     Raise (Exc ValueError (py "PosixPath('.') has an empty name"))).
Proof. vm_compute. reflexivity. Qed.


(** ** The further properties at concrete inputs *)

(** The percentage of 5 blocks of 1024 bytes out of 10240 is in range. *)
Lemma handle_progress_values_in_range_witness :
  Forall (fun v => 0 <= v <= 100)
    (set_values
       (emitted (window [] []) (handle_progress 5 1024 10240 (window [] [])).1)).
Proof.
  apply (handle_progress_values_in_range 5 1024 10240 (window [] [])).
  - lia.
  - lia.
Defined.

(** At [(10, 1024, 10240)] the bytes read reach the total. *)
Lemma handle_progress_complete_iff_witness :
  exists self',
    handle_progress 10 1024 10240 (window [] []) = (self', Ok tt)
    /\ (progress_bar self' = 100 <-> 10240 <= 10 * 1024).
Proof.
  apply (handle_progress_complete_iff 10 1024 10240 (window [] [])).
  - lia.
  - lia.
  - vm_compute. reflexivity.
Defined.

(** At [(5, 1024, 10240)] the callback returns: the quotient is small. *)
Lemma handle_progress_raises_iff_witness :
  match (handle_progress 5 1024 10240 (window [] [])).2 with
  | Ok _ =>
      5 * 1024 * 100 < overflow_threshold * 10240
      /\ Forall (fun v => 0 <= v <= 100)
           (set_values
              (emitted (window [] [])
                 (handle_progress 5 1024 10240 (window [] [])).1))
  | Raise e =>
      overflow_threshold * 10240 <= 5 * 1024 * 100
      /\ e = Exc OverflowError (py "integer division result too large for a float")
      /\ (handle_progress 5 1024 10240 (window [] [])).1 = window [] []
  end.
Proof.
  apply (handle_progress_raises_iff 5 1024 10240 (window [] [])).
  - lia.
  - lia.
Defined.

(** A transfer of 20000 bytes in blocks of 8192: the values shown ascend
    and the indicator ends at [100]. *)
Lemma transfer_progress_ascends_witness :
  exists self',
    report handle_progress (blocks_read 3 8192 20000) (window [] []) = (self', Ok tt)
    /\ StronglySorted Z.le (set_values (emitted (window [] []) self'))
    /\ progress_bar self' = 100.
Proof.
  destruct (transfer_progress_ascends 3 8192 20000 (window [] []))
    as (self' & E & Hsorted & Hbar).
  - lia.
  - lia.
  - vm_compute. reflexivity.
  - exists self'. split; [exact E|]. split; [exact Hsorted|].
    rewrite Hbar. vm_compute. reflexivity.
Defined.

(** A URL without a query string is its own media URL. *)
Lemma extract_media_url_no_query_witness :
  extract_media_url NFKC_ascii no_bracketed_host (py "https://example.com/file.bin")
  = Ok (py "https://example.com/file.bin").
Proof.
  apply (extract_media_url_no_query NFKC_ascii no_bracketed_host
           (py "https://example.com/file.bin")
           {| parse.scheme := py "https"; parse.netloc := py "example.com";
              parse.path := py "/file.bin"; parse.params := [];
              parse.query := []; parse.fragment := [] |}).
  - vm_compute. reflexivity.
  - vm_compute. reflexivity.
Defined.

(** A percent-encoded media URL with a plus sign is decoded. *)
Lemma extract_media_url_decodes_witness :
  extract_media_url NFKC_ascii no_bracketed_host
    (py "https://example.com/x?mediaurl=https%3A%2F%2Fcdn.example.com%2Fa+b.bin")
  = Ok (py "https://cdn.example.com/a b.bin").
Proof.
  destruct (extract_media_url_decodes NFKC_ascii no_bracketed_host
              (py "https://example.com/x?mediaurl=https%3A%2F%2Fcdn.example.com%2Fa+b.bin")
              {| parse.scheme := py "https"; parse.netloc := py "example.com";
                 parse.path := py "/x"; parse.params := [];
                 parse.query := py "mediaurl=https%3A%2F%2Fcdn.example.com%2Fa+b.bin";
                 parse.fragment := [] |}
              (py "https%3A%2F%2Fcdn.example.com%2Fa+b.bin")) as [H _].
  - vm_compute. reflexivity.
  - vm_compute. reflexivity.
  - discriminate.
  - vm_compute. reflexivity.
  - rewrite H. vm_compute. reflexivity.
Defined.

(** [/tmp/report.txt] has an extension: its name is [report], a dot and
    [txt]. *)
Lemma has_extension_iff_witness :
  has_extension (pathlib.Path (py "/tmp/report.txt")) = true.
Proof.
  apply (has_extension_iff (pathlib.Path (py "/tmp/report.txt"))).
  exists (py "report"), (py "txt").
  split; [discriminate|]. split; [discriminate|].
  split; vm_compute; reflexivity.
Defined.

(** [/tmp/out] with the URL of [file.bin]: the destination gets [.bin]
    and is then stable. *)
Lemma normalize_gives_extension_witness :
  exists final,
    normalize NFKC_ascii no_bracketed_host repr_plain (pathlib.Path (py "/tmp/out"))
      (py "https://cdn.example.com/file.bin") = Ok final
    /\ pathlib.suffix final = py ".bin"
    /\ has_extension final = true
    /\ normalize NFKC_ascii no_bracketed_host repr_plain final
         (py "https://cdn.example.com/file.bin") = Ok final.
Proof.
  destruct (normalize_gives_extension NFKC_ascii no_bracketed_host repr_plain
              (py "/tmp/out") (py "https://cdn.example.com/file.bin")
              {| parse.scheme := py "https"; parse.netloc := py "cdn.example.com";
                 parse.path := py "/file.bin"; parse.params := [];
                 parse.query := []; parse.fragment := [] |})
    as (final & E & Hs & Hh & E').
  - vm_compute. reflexivity.
  - vm_compute. discriminate.
  - vm_compute. reflexivity.
  - vm_compute. discriminate.
  - exists final. split; [exact E|]. split; [|by split].
    rewrite Hs. vm_compute. reflexivity.
Defined.

(** The three outcomes of a transfer: one that completes gives the
    information box and the indicator back at [0]; one that is refused,
    a [URLError], gives the first warning; one whose connection is reset
    while the body is read, an [OSError], gives the generic warning. *)
Lemma download_reports_outcome_witness :
  (exists self',
      download NFKC_ascii no_bracketed_host repr_plain serving_network
        (window (py "https://example.com/file.txt") (py "/tmp/report.txt"))
      = (self', Ok tt)
      /\ List.filter is_dialog (calls self')
         = [QMessageBox_information (py "Download Completed")
              (py "The Download Completed Successfully")]
      /\ progress_bar self' = 0)
  /\ (exists self',
         download NFKC_ascii no_bracketed_host repr_plain refusing_network
           (window (py "https://example.com/file.txt") (py "/tmp/report.txt"))
         = (self', Ok tt)
         /\ List.filter is_dialog (calls self')
            = [QMessageBox_warning (py "Download Error")
                 (py "Failed to download the file. Error: <urlopen error [Errno 111] Connection refused>")])
  /\ (exists self',
         download NFKC_ascii no_bracketed_host repr_plain resetting_network
           (window (py "https://example.com/file.txt") (py "/tmp/report.txt"))
         = (self', Ok tt)
         /\ List.filter is_dialog (calls self')
            = [QMessageBox_warning (py "Download Error")
                 (py "An error occurred: [Errno 104] Connection reset by peer")]).
Proof.
  split; [|split].
  - destruct (download_reports_outcome NFKC_ascii no_bracketed_host repr_plain
                serving_network
                (window (py "https://example.com/file.txt") (py "/tmp/report.txt"))
                (py "https://example.com/file.txt")
                (pathlib.Path (py "/tmp/report.txt")))
      as (self' & E & Hd & Hbar).
    + vm_compute. reflexivity.
    + cbv [serving_network completed notifications blocks_read seq List.map].
      repeat (constructor; [right; vm_compute; reflexivity|]).
      constructor.
    + exists self'. split; [exact E|]. split.
      * change (calls self')
          with (emitted (window (py "https://example.com/file.txt")
                           (py "/tmp/report.txt")) self').
        rewrite Hd. reflexivity.
      * apply Hbar. reflexivity.
  - destruct (download_reports_outcome NFKC_ascii no_bracketed_host repr_plain
                refusing_network
                (window (py "https://example.com/file.txt") (py "/tmp/report.txt"))
                (py "https://example.com/file.txt")
                (pathlib.Path (py "/tmp/report.txt")))
      as (self' & E & Hd & _).
    + vm_compute. reflexivity.
    + cbv [refusing_network refused notifications].
      repeat (constructor; [right; vm_compute; reflexivity|]).
      constructor.
    + exists self'. split; [exact E|].
      change (calls self')
        with (emitted (window (py "https://example.com/file.txt")
                         (py "/tmp/report.txt")) self').
      rewrite Hd. vm_compute. reflexivity.
  - destruct (download_reports_outcome NFKC_ascii no_bracketed_host repr_plain
                resetting_network
                (window (py "https://example.com/file.txt") (py "/tmp/report.txt"))
                (py "https://example.com/file.txt")
                (pathlib.Path (py "/tmp/report.txt")))
      as (self' & E & Hd & _).
    + vm_compute. reflexivity.
    + cbv [resetting_network reset notifications].
      repeat (constructor; [right; vm_compute; reflexivity|]).
      constructor.
    + exists self'. split; [exact E|].
      change (calls self')
        with (emitted (window (py "https://example.com/file.txt")
                         (py "/tmp/report.txt")) self').
      rewrite Hd. vm_compute. reflexivity.
Defined.

(** A transfer whose second notification overflows the division: the
    generic warning, though the transfer itself would have completed. *)
Lemma download_callback_overflow_witness :
  exists self',
    download NFKC_ascii no_bracketed_host repr_plain oversized_network
      (window (py "https://example.com/file.txt") (py "/tmp/report.txt"))
    = (self', Ok tt)
    /\ List.filter is_dialog (calls self')
       = [QMessageBox_warning (py "Download Error")
            (py "An error occurred: integer division result too large for a float")].
Proof.
  destruct (download_callback_overflow NFKC_ascii no_bracketed_host repr_plain
              oversized_network
              (window (py "https://example.com/file.txt") (py "/tmp/report.txt"))
              (py "https://example.com/file.txt") (pathlib.Path (py "/tmp/report.txt"))
              [(0, 8192, 1)] (2 ^ 1024) 1 1 [])
    as (self' & E & Hd).
  - vm_compute. reflexivity.
  - reflexivity.
  - constructor; [right; vm_compute; reflexivity|constructor].
  - lia.
  - vm_compute. discriminate.
  - exists self'. split; [exact E|].
    change (calls self') with (emitted (window (py "https://example.com/file.txt")
                                          (py "/tmp/report.txt")) self').
    exact Hd.
Defined.

(** The refused transfer keeps the indicator at or below [100]. *)
Lemma download_indicator_at_most_100_witness :
  Forall (fun v => v <= 100)
    (set_values
       (emitted (window (py "https://example.com/file.txt") (py "/tmp/report.txt"))
          (download NFKC_ascii no_bracketed_host repr_plain refusing_network
             (window (py "https://example.com/file.txt") (py "/tmp/report.txt"))).1))
  /\ progress_bar
       (download NFKC_ascii no_bracketed_host repr_plain refusing_network
          (window (py "https://example.com/file.txt") (py "/tmp/report.txt"))).1
     <= 100.
Proof.
  apply (download_indicator_at_most_100 NFKC_ascii no_bracketed_host repr_plain
           refusing_network
           (window (py "https://example.com/file.txt") (py "/tmp/report.txt"))).
  cbn. lia.
Defined.

(** After the refused transfer a second download raises. *)
Lemma download_again_raises_witness :
  exists self',
    download NFKC_ascii no_bracketed_host repr_plain refusing_network
      (window (py "https://example.com/file.txt") (py "/tmp/report.txt"))
    = (self', Ok tt)
    /\ download NFKC_ascii no_bracketed_host repr_plain refusing_network self'
       = (self', Raise (Exc ValueError (py "PosixPath('.') has an empty name"))).
Proof.
  apply (download_again_raises NFKC_ascii no_bracketed_host repr_plain
           refusing_network
           (window (py "https://example.com/file.txt") (py "/tmp/report.txt"))
           (py "https://example.com/file.txt") (pathlib.Path (py "/tmp/report.txt"))).
  vm_compute. reflexivity.
Defined.

(** The file chosen in the dialog replaces what the location field held. *)
Lemma browse_then_download_witness :
  exists self',
    (browse (py "/tmp/report.txt", py "All Files");;
     download NFKC_ascii no_bracketed_host repr_plain refusing_network)
      (window (py "https://example.com/file.txt") (py "old"))
    = (self', Ok tt)
    /\ List.filter is_fetch
         (emitted (window (py "https://example.com/file.txt") (py "old")) self')
       = [urlretrieve_start (py "https://example.com/file.txt")
            (pathlib.Path (py "/tmp/report.txt"))]
    /\ location_line_edit self' = [].
Proof.
  apply (browse_then_download NFKC_ascii no_bracketed_host repr_plain refusing_network
           (py "/tmp/report.txt", py "All Files")
           (window (py "https://example.com/file.txt") (py "old"))
           (py "https://example.com/file.txt")).
  - vm_compute. reflexivity.
  - vm_compute. discriminate.
Defined.

(** A cancelled dialog after the destination was typed in. *)
Lemma browse_cancelled_then_download_witness :
  exists e,
    (browse ([], []);;
     download NFKC_ascii no_bracketed_host repr_plain refusing_network)
      (window (py "https://example.com/file.txt") (py "/tmp/report.txt"))
    = ((browse ([], [])
          (window (py "https://example.com/file.txt") (py "/tmp/report.txt"))).1,
       Raise e)
    /\ location_line_edit
         (browse ([], [])
            (window (py "https://example.com/file.txt") (py "/tmp/report.txt"))).1 = []
    /\ url_line_edit
         (browse ([], [])
            (window (py "https://example.com/file.txt") (py "/tmp/report.txt"))).1
       = url_line_edit (window (py "https://example.com/file.txt") (py "/tmp/report.txt"))
    /\ List.filter is_dialog
         (emitted (window (py "https://example.com/file.txt") (py "/tmp/report.txt"))
            (browse ([], [])
               (window (py "https://example.com/file.txt") (py "/tmp/report.txt"))).1)
       = [].
Proof.
  apply (browse_cancelled_then_download NFKC_ascii no_bracketed_host repr_plain
           refusing_network ([], [])
           (window (py "https://example.com/file.txt") (py "/tmp/report.txt"))).
  reflexivity.
Defined.

(** A URL with an open bracket: the [ValueError] of the parser leaves
    [download], and the window is untouched. *)
Lemma download_raises_ValueError_witness :
  exc_type (Exc ValueError (py "Invalid IPv6 URL")) = ValueError
  /\ (download NFKC_ascii no_bracketed_host repr_plain refusing_network
        (window (py "http://[") (py "/tmp/report.txt"))).1
     = window (py "http://[") (py "/tmp/report.txt").
Proof.
  apply (download_raises_ValueError NFKC_ascii no_bracketed_host repr_plain
           refusing_network).
  - intros hostname e [= <-]. reflexivity.
  - vm_compute. reflexivity.
Defined.
